(** * interfaces_file: the parser and the option editor of
    [files/interfaces_file.py], embedded as Rocq functions.

    The module is Python 2 code (it relies on [cmp] and on [filter]
    returning a list).  Strings are byte strings, modelled as [string];
    the dictionaries that hold an interface's attributes are modelled as
    [gmap string string]; integers that may be negative (the results of
    [str.find], slice bounds) are in [Z]. *)

From Stdlib Require Import ZArith String Ascii.
From stdpp Require Import base option list gmap strings.

Local Open Scope Z_scope.

(** ** Python string primitives used by the module *)

Module Py.

(** [len(s)] *)
Definition len (s : string) : Z := Z.of_nat (String.length s).

(** [s.split()]: the words of [s], separated by runs of the six
    whitespace bytes (space, tab, LF, VT, FF, CR); no empty word. *)
Definition split (s : string) : list string := String.words s.

(** [sep.join(l)] *)
Definition join (sep : string) (l : list string) : string :=
  String.concat sep l.

(** How a slice bound or a search start is brought into [0..len]: a
    negative bound counts from the end and is clamped at 0, a bound past
    the end is clamped at the end. *)
Definition adjust (n i : Z) : Z :=
  if i <? 0 then Z.max 0 (i + n) else Z.min i n.

(** [s[lo:hi]]; [None] stands for an omitted bound. *)
Definition slice (s : string) (lo hi : option Z) : string :=
  let n := len s in
  let a := from_option (adjust n) 0 lo in
  let b := from_option (adjust n) n hi in
  String.substring (Z.to_nat a) (Z.to_nat (b - a)) s.

(** [s.find(sub, start)]: the lowest index [>= start] at which [sub]
    occurs in [s], or [-1].  A negative [start] counts from the end. *)
Definition find_from (s sub : string) (start : Z) : Z :=
  let a := if start <? 0 then Z.max 0 (start + len s) else start in
  match String.index (Z.to_nat a) sub s with
  | Some k => Z.of_nat k
  | None => -1
  end.

(** [s.find(sub)] *)
Definition find (s sub : string) : Z := find_from s sub 0.

(** [s.replace(old, new)] for a non-empty [old]: the occurrences of
    [old] are replaced from left to right, without overlap.  [skip]
    counts the bytes of the occurrence just replaced that are still to
    be passed over. *)
Fixpoint replace_go (old new : string) (skip : nat) (s : string) : string :=
  match s with
  | EmptyString => EmptyString
  | String c s' =>
      match skip with
      | S k => replace_go old new k s'
      | O =>
          if String.prefix old s
          then new +:+ replace_go old new (String.length old - 1) s'
          else String c (replace_go old new O s')
      end
  end.

(** [s.replace("", new)]: [new] goes before every byte and at the end. *)
Fixpoint replace_empty (new : string) (s : string) : string :=
  match s with
  | EmptyString => new
  | String c s' => new +:+ String c (replace_empty new s')
  end.

Definition replace (s old new : string) : string :=
  match old with
  | EmptyString => replace_empty new s
  | String _ _ => replace_go old new O s
  end.

(** Iterating over an open file: the text cut after every line feed,
    each line keeping its terminator; a last line without one is kept
    as it is. *)
Fixpoint readlines_go (cur : string) (s : string) : list string :=
  match s with
  | EmptyString => if decide (cur = EmptyString) then [] else [cur]
  | String c s' =>
      if Ascii.eqb c "010"
      then (cur +:+ String c EmptyString) :: readlines_go EmptyString s'
      else readlines_go (cur +:+ String c EmptyString) s'
  end.

Definition readlines (text : string) : list string :=
  readlines_go EmptyString text.

(** [l.index(x)]: the position of the first element equal to [x]. *)
Fixpoint index {A} `{EqDecision A} (x : A) (l : list A) : option nat :=
  match l with
  | [] => None
  | y :: l' => if decide (y = x) then Some O else S <$> index x l'
  end.

(** [l.insert(i, x)] for [0 <= i]: [x] goes before position [i], or at
    the end when [i] is past it. *)
Definition insert_at {A} (i : nat) (x : A) (l : list A) : list A :=
  take i l ++ x :: drop i l.

End Py.

(** ** Data model *)

(** The dictionary of one interface: the keys [name], [address_family] and
    [method], and one key per option name seen in the stanza. *)
Abbreviation dict := (gmap string string).

(** The three shapes of line record.  [P] is what an [iface] record
    carries under its [params] key: a reference into the parser's store of
    interface dictionaries while the parser runs (the record and the
    parser's [currif] name the same object), the dictionary itself once
    parsing is over.
    - [lineDict line] is [{'line': line, 'line_type': 'unknown'}];
    - [ifaceDict line iface params] is
      [{'line': line, 'iface': iface, 'line_type': 'iface', 'params': params}];
    - [optionDict line iface option value] is
      [{'line': line, 'iface': iface, 'option': option, 'value': value,
        'line_type': 'option'}]. *)
Inductive LineRecord (P : Type) : Type :=
| lineDict (line : string)
| ifaceDict (line iface : string) (params : P)
| optionDict (line iface option value : string).

Arguments lineDict {P} line.
Arguments ifaceDict {P} line iface params.
Arguments optionDict {P} line iface option value.

#[global] Instance LineRecord_eq_dec {P} `{EqDecision P} :
  EqDecision (LineRecord P).
Proof. solve_decision. Defined.

(** [item['line']] *)
Definition line_of {P} (item : LineRecord P) : string :=
  match item with
  | lineDict l | ifaceDict l _ _ | optionDict l _ _ _ => l
  end.

(** [item['iface']], where the key exists *)
Definition iface_of {P} (item : LineRecord P) : option string :=
  match item with
  | lineDict _ => None
  | ifaceDict _ n _ | optionDict _ n _ _ => Some n
  end.

(** What the module reports through [module.fail_json], which ends the run. *)
Inductive Msg : Type :=
| IncorrectNumberOfParameters (count line_no : nat)
    (* "Incorrect number of parameters (%d) in line %d, must be exectly 3" *)
| MisplacedOption (line : string) (line_no : nat)
    (* "misplaced option %s in line %d" *)
| InterfaceNotFound (iface : string)
    (* "Error: interface %s not found" *)
| UnsupportedState (state : string).
    (* "Error: unsupported state %s, has to be ither present or absent" *)

(** How a call ends when it does not return: [fail_json], or a Python
    exception that nothing catches. *)
Inductive Failure : Type :=
| FailJson (msg : Msg)
| ValueError
| IndexError
| KeyError
| NameError.

Inductive result (A : Type) : Type :=
| Ok (a : A)
| Err (e : Failure).

Arguments Ok {A} a.
Arguments Err {A} e.

(** Sequencing: the first failure ends the call. *)
#[global] Instance result_bind : MBind result := λ A B k m,
  match m with
  | Ok a => k a
  | Err e => Err e
  end.

Definition from_some {A} (e : Failure) (o : option A) : result A :=
  match o with
  | Some a => Ok a
  | None => Err e
  end.

(** ** The parser: [read_interfaces_lines] *)

Inductive Mode : Type := MAPPING | NONE | IFACE.

#[global] Instance Mode_eq_dec : EqDecision Mode.
Proof. solve_decision. Defined.

(** The local variables of [read_interfaces_lines] and the interface
    dictionaries it has allocated, in allocation order.  [currif] and the
    [params] of the [iface] records are positions in [heap];
    [currently_processing = None] is Python's [None]. *)
Record PState : Type := mkPState {
  lines : list (LineRecord nat);
  ifaces : gmap string nat;
  heap : list dict;
  currif : option nat;
  currently_processing : option Mode;
  i : nat
}.

Definition initial : PState :=
  {| lines := []; ifaces := ∅; heap := []; currif := None;
     currently_processing := None; i := O |}.

(** [lines.append(r)], with [i] already incremented by the caller *)
Definition append_line (st : PState) (n : nat) (r : LineRecord nat)
    (m : option Mode) : PState :=
  {| lines := lines st ++ [r]; ifaces := ifaces st; heap := heap st;
     currif := currif st; currently_processing := m; i := n |}.

(** [currif[key]] *)
Definition currif_get (st : PState) (key : string) : result string :=
  r ← from_some NameError (currif st);
  d ← from_some NameError (heap st !! r);
  from_some KeyError (d !! key).

(** One iteration of the [for line in line_strings] loop. *)
Definition process_line (st : PState) (line : string) : result PState :=
  let n := S (i st) in
  let words := Py.split line in
  match words with
  | [] => Ok (append_line st n (lineDict line) (currently_processing st))
  | w0 :: args =>
      (* words[0][0]: a word of [split] has a first byte *)
      if decide (String.get 0 w0 = Some "#"%char) then
        Ok (append_line st n (lineDict line) (currently_processing st))
      else if decide (w0 = "mapping") then
        Ok (append_line st n (lineDict line) (Some MAPPING))
      else if decide (w0 = "source") then
        Ok (append_line st n (lineDict line) (Some NONE))
      else if decide (w0 = "source-dir") then
        Ok (append_line st n (lineDict line) (Some NONE))
      else if decide (w0 = "iface") then
        (* currif = {}; the three names are unpacked from words[1:4]
           before the length of [words] is looked at *)
        match take 3 args with
        | [iface_name; address_family_name; method_name] =>
            if decide (length words ≠ 4%nat) then
              Err (FailJson (IncorrectNumberOfParameters (length words) n))
            else
              let r := length (heap st) in
              let d : dict :=
                <["method" := method_name]>
                  (<["address_family" := address_family_name]>
                     (<["name" := iface_name]> ∅)) in
              Ok {| lines := lines st ++ [ifaceDict line iface_name r];
                    ifaces := <[iface_name := r]> (ifaces st);
                    heap := heap st ++ [d];
                    currif := Some r;
                    currently_processing := Some IFACE;
                    i := n |}
        | _ => Err ValueError
        end
      else if decide (w0 = "auto") then
        Ok (append_line st n (lineDict line) (Some NONE))
      else if decide (w0 = "allow-") then
        Ok (append_line st n (lineDict line) (Some NONE))
      else if decide (w0 = "no-auto-down") then
        Ok (append_line st n (lineDict line) (Some NONE))
      else if decide (w0 = "no-scripts") then
        Ok (append_line st n (lineDict line) (Some NONE))
      else
        match currently_processing st with
        | Some IFACE =>
            let option_name := w0 in
            let value := Py.join " " args in
            name ← currif_get st "name";
            r ← from_some NameError (currif st);
            d ← from_some NameError (heap st !! r);
            Ok {| lines := lines st ++ [optionDict line name option_name value];
                  ifaces := ifaces st;
                  heap := <[r := <[option_name := value]> d]> (heap st);
                  currif := currif st;
                  currently_processing := Some IFACE;
                  i := n |}
        | Some MAPPING =>
            Ok (append_line st n (lineDict line) (Some MAPPING))
        | Some NONE =>
            Ok (append_line st n (lineDict line) (Some NONE))
        | None =>
            Err (FailJson (MisplacedOption line n))
        end
  end.

(** The loop, from a given state. *)
Fixpoint run (st : PState) (line_strings : list string) : result PState :=
  match line_strings with
  | [] => Ok st
  | line :: rest => st' ← process_line st line; run st' rest
  end.

(** What a reference held by a record or by [ifaces] denotes when the
    parser returns. *)
Definition deref (h : list dict) (r : nat) : dict := default ∅ (h !! r).

Definition resolve (h : list dict) (item : LineRecord nat) : LineRecord dict :=
  match item with
  | lineDict l => lineDict l
  | ifaceDict l n r => ifaceDict l n (deref h r)
  | optionDict l n o v => optionDict l n o v
  end.

(** [read_interfaces_lines(module, line_strings)]: the pair
    [(lines, ifaces)] as the caller sees it on return. *)
Definition read_interfaces_lines (line_strings : list string)
    : result (list (LineRecord dict) * gmap string dict) :=
  st ← run initial line_strings;
  Ok (resolve (heap st) <$> lines st, deref (heap st) <$> ifaces st).

(** [read_interfaces_file(module, filename)], given the text of the file. *)
Definition read_interfaces_file (text : string)
    : result (list (LineRecord dict) * gmap string dict) :=
  read_interfaces_lines (Py.readlines text).

Definition nl : string := String "010" EmptyString.

(** A record without what its [params] key holds. *)
Definition erase {P} (item : LineRecord P) : LineRecord unit :=
  match item with
  | lineDict l => lineDict l
  | ifaceDict l n _ => ifaceDict l n ()
  | optionDict l n o v => optionDict l n o v
  end.

(** The records of a parse, and the empty sequence when it fails. *)
Definition parsed (line_strings : list string) : list (LineRecord dict) :=
  match read_interfaces_lines line_strings with
  | Ok (recs, _) => recs
  | Err _ => []
  end.

(** What a call returned, without the [params] of the records. *)
Definition returned_of (r : result (bool * list (LineRecord dict)))
    : option (bool * list (LineRecord unit)) :=
  match r with
  | Ok (changed, out) => Some (changed, erase <$> out)
  | Err _ => None
  end.

Definition is_ok {A} (r : result A) : bool :=
  match r with
  | Ok _ => true
  | Err _ => false
  end.

(** ** The editor: [setInterfaceOption] *)

(** ["iface" in item and item["iface"] == iface] *)
Definition of_iface (iface : string) (item : LineRecord dict) : Prop :=
  iface_of item = Some iface.

(** [i['line_type'] == 'option'] *)
Definition is_option (item : LineRecord dict) : Prop :=
  match item with
  | optionDict _ _ _ _ => True
  | _ => False
  end.

(** [i['option'] == option], on records that have the key *)
Definition option_is (option_name : string) (item : LineRecord dict) : Prop :=
  match item with
  | optionDict _ _ o _ => o = option_name
  | _ => False
  end.

(** [i['value']] *)
Definition value_of (item : LineRecord dict) : string :=
  match item with
  | optionDict _ _ _ v => v
  | _ => EmptyString
  end.

#[global] Instance of_iface_dec iface item : Decision (of_iface iface item).
Proof. unfold of_iface. apply _. Defined.

#[global] Instance is_option_dec item : Decision (is_option item).
Proof. destruct item; simpl; apply _. Defined.

#[global] Instance option_is_dec o item : Decision (option_is o item).
Proof. destruct item; simpl; apply _. Defined.

(** The three filters at the head of the function. *)
Definition iface_lines_of (lines : list (LineRecord dict)) (iface : string)
    : list (LineRecord dict) :=
  filter (of_iface iface) lines.

Definition iface_options_of (lines : list (LineRecord dict)) (iface : string)
    : list (LineRecord dict) :=
  filter is_option (iface_lines_of lines iface).

Definition target_options_of (lines : list (LineRecord dict))
    (iface option_name : string) : list (LineRecord dict) :=
  filter (option_is option_name) (iface_options_of lines iface).

(** What a call leaves behind: the contents, after the call, of the list
    object the caller passed as [lines] (the [present] branch edits that
    object in place, the [absent] branch builds a new list), and either the
    returned pair [(changed, lines)] or the failure. *)
Record Outcome : Type := mkOutcome {
  caller_lines : list (LineRecord dict);
  ret : result (bool * list (LineRecord dict))
}.

(** What the call returned, without the [params] of the records. *)
Definition returned (o : Outcome) : option (bool * list (LineRecord unit)) :=
  returned_of (ret o).

(** The text of the new option line, built from the last line of the
    interface. *)
Definition new_option_line (last_line : string) (no_options : bool)
    (option_name value : string) : result string :=
  let words := Py.split last_line in
  first_word ← from_some IndexError (head words);
  last_word ← from_some IndexError (last words);
  let prefix_start := Py.find last_line first_word in
  let suffix_start := Py.find last_line last_word + Py.len last_word in
  let line := Py.slice last_line None (Some prefix_start) in
  let line := if no_options then line +:+ "    " else line in
  let line := line +:+ (option_name +:+ " " +:+ value) in
  let line := line +:+ Py.slice last_line (Some suffix_start) None in
  Ok line.

(** The text of the edited option line. *)
Definition updated_option_line (old_line old_value option_name value : string)
    : string :=
  let prefix_start := Py.find old_line option_name in
  let start := Py.find_from old_line old_value
                 (prefix_start + Py.len option_name - 1) in
  Py.slice old_line None (Some start)
  +:+ Py.replace (Py.slice old_line (Some start) (Some (start + Py.len old_value)))
        old_value value
  +:+ Py.slice old_line (Some (start + Py.len old_value)) None.

(** [setInterfaceOption(module, lines, iface, option, raw_value, state)],
    with [value = str(raw_value)] already taken. *)
Definition setInterfaceOption (lines : list (LineRecord dict))
    (iface option_name value state : string) : Outcome :=
  let iface_lines := iface_lines_of lines iface in
  if decide (length iface_lines < 1)%nat then
    mkOutcome lines (Err (FailJson (InterfaceNotFound iface)))
  else
    let iface_options := iface_options_of lines iface in
    let target_options := target_options_of lines iface option_name in
    if decide (state = "present") then
      if decide (length target_options < 1)%nat then
        (* add new option *)
        match
          last_line_dict ← from_some IndexError (last iface_lines);
          line ← new_option_line (line_of last_line_dict)
                   (bool_decide (length iface_options < 1)%nat)
                   option_name value;
          j ← from_some ValueError (Py.index last_line_dict (reverse lines));
          Ok (Py.insert_at (length lines - j)
                (optionDict line iface option_name value) lines)
        with
        | Ok lines' => mkOutcome lines' (Ok (true, lines'))
        | Err e => mkOutcome lines (Err e)
        end
      else
        (* if more than one option found edit the last one *)
        match last target_options with
        | None => mkOutcome lines (Err IndexError)
        | Some target_option =>
            if decide (Py.split (value_of target_option) ≠ Py.split value) then
              let old_line := line_of target_option in
              let old_value := value_of target_option in
              let line := updated_option_line old_line old_value
                            option_name value in
              match Py.index target_option (reverse lines) with
              | None => mkOutcome lines (Err ValueError)
              | Some j =>
                  let index := (length lines - j - 1)%nat in
                  let lines' :=
                    <[index := optionDict line iface option_name value]> lines in
                  mkOutcome lines' (Ok (true, lines'))
              end
            else mkOutcome lines (Ok (false, lines))
        end
    else if decide (state = "absent") then
      match target_options with
      | target :: _ =>
          mkOutcome lines (Ok (true, filter (λ l, l ≠ target) lines))
      | [] => mkOutcome lines (Ok (false, lines))
      end
    else
      mkOutcome lines (Err (FailJson (UnsupportedState state))).

(** [main] when an option is given: from the text of the file to the
    changed flag and the lines handed to [write_changes]. *)
Definition edit_file (text iface option_name value state : string)
    : result (bool * list string) :=
  match read_interfaces_file text with
  | Err e => Err e
  | Ok (lines, _) =>
      match ret (setInterfaceOption lines iface option_name value state) with
      | Err e => Err e
      | Ok (changed, lines') => Ok (changed, line_of <$> lines')
      end
  end.

(** [write_changes(module, lines, dest)]: the bytes that [f.writelines]
    puts in the file. *)
Definition write_changes (lines : list string) : string :=
  foldr String.append EmptyString lines.

(** ** Predicates and functions used in the statements *)

(** While an interface stanza is open, [currif] is bound to a dictionary
    that has the key [name]. *)
Definition stanza_open (st : PState) : Prop :=
  currently_processing st = Some IFACE →
  ∃ r d name, currif st = Some r ∧ heap st !! r = Some d
              ∧ d !! "name" = Some name.

(** The eight literals the loop compares the first word with. *)
Definition directives : list string :=
  ["mapping"; "source"; "source-dir"; "iface"; "auto"; "allow-";
   "no-auto-down"; "no-scripts"].

(** The records [target_options] selects: the option records of the
    interface that carry the option name. *)
Definition target (iface option_name : string) (item : LineRecord dict) : Prop :=
  option_is option_name item ∧ is_option item ∧ of_iface iface item.

#[global] Instance target_dec iface o item : Decision (target iface o item).
Proof. unfold target. apply _. Defined.

(** The removal as the specification words it: the first record that
    [target_options] selects is dropped, every other record stays. *)
Fixpoint remove_first_target (iface o : string) (lines : list (LineRecord dict))
    : list (LineRecord dict) :=
  match lines with
  | [] => []
  | r :: rest =>
      if decide (target iface o r) then rest
      else r :: remove_first_target iface o rest
  end.

(** The records a parse returns for [iface] and option lines hold lines
    that have at least one word. *)
Definition has_words {P} (item : LineRecord P) : Prop :=
  iface_of item ≠ None → Py.split (line_of item) ≠ [].

Definition is_Some_result {A} (r : result A) : Prop := ∃ a, r = Ok a.

(** Whether the first word of a line is one of the eight literals. *)
Definition is_directive (line : string) : bool :=
  match Py.split line with
  | w :: _ => bool_decide (w ∈ directives)
  | [] => false
  end.

(** The stanza that is open after the records [recs], when [open] was open
    before them, going by the records alone: an [iface] record opens its
    interface, a line starting with one of the literals closes what was
    open, any other record leaves it. *)
Fixpoint open_after {P} (open : option string) (recs : list (LineRecord P))
    : option string :=
  match recs with
  | [] => open
  | ifaceDict _ n _ :: rest => open_after (Some n) rest
  | optionDict _ _ _ _ :: rest => open_after open rest
  | lineDict l :: rest =>
      open_after (if is_directive l then None else open) rest
  end.

(** Every option record names the stanza that is open above it. *)
Fixpoint back_references {P} (open : option string)
    (recs : list (LineRecord P)) : Prop :=
  match recs with
  | [] => True
  | ifaceDict _ n _ :: rest => back_references (Some n) rest
  | optionDict _ n _ _ :: rest => open = Some n ∧ back_references open rest
  | lineDict l :: rest =>
      back_references (if is_directive l then None else open) rest
  end.

(** What the parser keeps true when no option is called [name]: the
    records so far are well referenced, and while a stanza is open the
    [name] in [currif] is the interface of the last [iface] record, with no
    directive after it. *)
Definition names_agree (st : PState) : Prop :=
  back_references None (lines st)
  ∧ (currently_processing st = Some IFACE →
     ∃ r d name, currif st = Some r ∧ heap st !! r = Some d
                 ∧ d !! "name" = Some name
                 ∧ open_after None (lines st) = Some name).

(** ** Files and record sequences used as examples *)

(** A file with a comment, a blank line, a directive, a stanza with
    irregular spacing, and no terminator on its last line. *)
Definition sample_text : string :=
  "# lo" +:+ nl +:+ nl +:+ "auto eth0" +:+ nl
  +:+ "iface eth0 inet static" +:+ nl +:+ "	address  10.0.0.1 " +:+ nl
  +:+ "  mtu 1500".

(** An interface with the same [mtu] line twice. *)
Definition duplicated_mtu : list string :=
  ["iface eth0 inet static" +:+ nl; "    mtu 1500" +:+ nl; "    mtu 1500" +:+ nl].

(** An interface with two different [mtu] records. *)
Definition two_mtu : list (LineRecord dict) :=
  [ifaceDict ("iface eth0 inet static" +:+ nl) "eth0" ∅;
   optionDict ("    mtu 1500" +:+ nl) "eth0" "mtu" "1500";
   optionDict ("    mtu 9000" +:+ nl) "eth0" "mtu" "9000"].

(** The records of a stanza with one option. *)
Definition eth0_static : list (LineRecord dict) :=
  [ifaceDict ("iface eth0 inet static" +:+ nl) "eth0" ∅;
   optionDict ("    address 10.0.0.1" +:+ nl) "eth0" "address" "10.0.0.1"].

(** A stanza whose [mtu] is 1500. *)
Definition eth0_mtu : list string :=
  ["iface eth0 inet static" +:+ nl; "    mtu 1500" +:+ nl].

(** [iface] lines with one word too many and with two words too few. *)
Definition iface_five_words : list string :=
  ["iface eth0 inet static dhcp" +:+ nl].

Definition iface_two_words : list string :=
  ["# primary" +:+ nl; "iface eth0" +:+ nl].

(** Option lines whose value is the last byte of the name, whose words are
    two spaces apart, and that have no value. *)
Definition up_p : list string :=
  ["iface eth0 inet static" +:+ nl; "    up p" +:+ nl].

Definition two_nameservers : list string :=
  ["iface eth0 inet static" +:+ nl;
   "    dns-nameservers 8.8.8.8  8.8.4.4" +:+ nl].

Definition flag_option : list string :=
  ["iface eth0 inet static" +:+ nl; "    bridge_hw" +:+ nl].

(** A stanza whose last line ends with the word it starts with. *)
Definition link_up : list string :=
  ["iface eth0 inet static" +:+ nl; "    up ip link set eth0 up" +:+ nl].

(** A stanza with an option called [name]. *)
Definition option_called_name : list string :=
  ["iface eth0 inet static" +:+ nl; "    name foo" +:+ nl;
   "    mtu 1500" +:+ nl].

(** ** Further predicates and functions used in the statements *)

(** A line without words, or whose first word starts with [#]: the two
    kinds of line the loop records and passes over. *)
Definition blank_or_comment (line : string) : Prop :=
  match Py.split line with
  | [] => True
  | w :: _ => String.get 0 w = Some "#"%char
  end.

(** The dictionary an [iface] line of four words starts its stanza with. *)
Definition header_dict (line : string) : dict :=
  match Py.split line with
  | [_; n; f; m] =>
      <["method" := m]> (<["address_family" := f]> (<["name" := n]> ∅))
  | _ => ∅
  end.

(** [o := v] in the last dictionary of a list. *)
Definition set_last (o v : string) (ds : list dict) : list dict :=
  match last ds with
  | Some d => <[(length ds - 1)%nat := <[o := v]> d]> ds
  | None => ds
  end.

(** The dictionaries of the stanzas as the records alone give them, in the
    order of the [iface] records: each starts as the header's three fields
    and takes the options of the option records that follow, a later value
    for a key replacing an earlier one. *)
Fixpoint stanza_dicts {P} (acc : list dict) (recs : list (LineRecord P))
    : list dict :=
  match recs with
  | [] => acc
  | ifaceDict l _ _ :: rest => stanza_dicts (acc ++ [header_dict l]) rest
  | optionDict _ _ o v :: rest => stanza_dicts (set_last o v acc) rest
  | lineDict _ :: rest => stanza_dicts acc rest
  end.

(** [item['params']], where the key exists *)
Definition params_of {P} (item : LineRecord P) : option P :=
  match item with
  | ifaceDict _ _ p => Some p
  | _ => None
  end.

(** The [params] of the [iface] records for the interface [n], in order. *)
Definition params_named {P} (n : string) (recs : list (LineRecord P)) : list P :=
  omap (λ r, match r with
             | ifaceDict _ m p => if decide (m = n) then Some p else None
             | _ => None
             end) recs.

(** A record holds what its line says: an [iface] record the second word
    of a four-word [iface] line, an option record the first word of its
    line and the other words joined by single spaces. *)
Definition agrees_with_line {P} (item : LineRecord P) : Prop :=
  match item with
  | lineDict _ => True
  | ifaceDict l n _ => ∃ f m, Py.split l = ["iface"; n; f; m]
  | optionDict l _ o v =>
      ∃ args, Py.split l = o :: args ∧ v = Py.join " " args
              ∧ o ∉ directives ∧ String.get 0 o ≠ Some "#"%char
  end.

(** ** Further definitions: the ways a call ends, repeated calls, words *)

(** The ways a call of [setInterfaceOption] can end, branch by branch:
    what is left in the caller's list and what is returned. *)
Inductive Edit (lines : list (LineRecord dict)) (iface o v : string)
    : string → Outcome → Prop :=
| edit_not_found state :
    iface_lines_of lines iface = [] →
    Edit lines iface o v state
      (mkOutcome lines (Err (FailJson (InterfaceNotFound iface))))
| edit_unsupported state :
    iface_lines_of lines iface ≠ [] →
    state ≠ "present" → state ≠ "absent" →
    Edit lines iface o v state
      (mkOutcome lines (Err (FailJson (UnsupportedState state))))
| edit_absent_nothing :
    iface_lines_of lines iface ≠ [] →
    target_options_of lines iface o = [] →
    Edit lines iface o v "absent" (mkOutcome lines (Ok (false, lines)))
| edit_absent_removed t rest :
    target_options_of lines iface o = t :: rest →
    Edit lines iface o v "absent"
      (mkOutcome lines (Ok (true, filter (λ l, l ≠ t) lines)))
| edit_present_same t :
    last (target_options_of lines iface o) = Some t →
    Py.split (value_of t) = Py.split v →
    Edit lines iface o v "present" (mkOutcome lines (Ok (false, lines)))
| edit_present_updated t l1 l2 :
    last (target_options_of lines iface o) = Some t →
    Py.split (value_of t) ≠ Py.split v →
    lines = l1 ++ t :: l2 →
    filter (target iface o) l2 = [] →
    let new := optionDict (updated_option_line (line_of t) (value_of t) o v)
                 iface o v in
    Edit lines iface o v "present"
      (mkOutcome (l1 ++ new :: l2) (Ok (true, l1 ++ new :: l2)))
| edit_present_inserted a l1 l2 line :
    target_options_of lines iface o = [] →
    last (iface_lines_of lines iface) = Some a →
    lines = l1 ++ a :: l2 →
    filter (of_iface iface) l2 = [] →
    new_option_line (line_of a)
      (bool_decide (length (iface_options_of lines iface) < 1)%nat) o v
    = Ok line →
    let new := optionDict line iface o v in
    Edit lines iface o v "present"
      (mkOutcome (l1 ++ a :: new :: l2) (Ok (true, l1 ++ a :: new :: l2)))
| edit_present_no_anchor_word a :
    target_options_of lines iface o = [] →
    last (iface_lines_of lines iface) = Some a →
    Py.split (line_of a) = [] →
    Edit lines iface o v "present" (mkOutcome lines (Err IndexError)).

(** [n] calls with state [absent], each on the sequence the one before
    returned; a call that fails ends the series. *)
Fixpoint absent_times (n : nat) (lines : list (LineRecord dict))
    (iface o v : string) : list (LineRecord dict) :=
  match n with
  | O => lines
  | S k =>
      match ret (setInterfaceOption lines iface o v "absent") with
      | Ok (_, out) => absent_times k out iface o v
      | Err _ => lines
      end
  end.

(** A stanza whose last record holds a line without words, as a call with
    an empty option name and an empty value leaves it. *)
Definition blank_anchor : list (LineRecord dict) :=
  [ifaceDict ("iface eth0 inet static" +:+ nl) "eth0" ∅;
   optionDict ("     " +:+ nl) "eth0" "" ""].

(** A string without whitespace bytes. *)
Fixpoint no_space (s : string) : Prop :=
  match s with
  | EmptyString => True
  | String c s' => Ascii.is_space c = false ∧ no_space s'
  end.

(** What [split] returns: non-empty strings without whitespace. *)
Definition is_word (w : string) : Prop := w ≠ EmptyString ∧ no_space w.

(** The interface map of a parse, and the empty map when it fails. *)
Definition parsed_ifaces (line_strings : list string) : gmap string dict :=
  match read_interfaces_lines line_strings with
  | Ok (_, ifs) => ifs
  | Err _ => ∅
  end.

(** A stanza whose [mtu] line is spaced with tabs and blanks. *)
Definition spaced_mtu : list string :=
  ["iface eth0 inet static" +:+ nl; "	mtu   1500  " +:+ nl].

(** What the parser keeps true of its store of dictionaries: they are the
    ones the records give, the [iface] records refer to them in order, and
    [currif] is the last of them. *)
Definition store_agrees (st : PState) : Prop :=
  heap st = stanza_dicts [] (lines st)
  ∧ omap params_of (lines st) = seq 0 (length (heap st))
  ∧ (∀ r, currif st = Some r → S r = length (heap st))
  ∧ (∀ n, ifaces st !! n = last (params_named n (lines st))).

(** ** The caller: [main] *)

(** The parameters [main] reads from [module.params], and whether the run
    is a check-mode run.  [None] is Python's [None], the default of
    [iface], [option] and [value]. *)
Record Params : Type := mkParams {
  p_iface : option string;
  p_option : option string;
  p_value : option string;
  p_backup : bool;
  p_state : string;
  p_check_mode : bool
}.

(** How [main] can fail: its own two checks, a failure of the parser or of
    the editor, or a failure on the way to the disk: [module.backup_local]
    does not complete, or one of the steps of [write_changes]
    ([tempfile.mkstemp], [os.fdopen], [writelines], [close],
    [module.atomic_move]) does not. *)
Inductive MainFailure : Type :=
| InterfaceMustBeSet
    (* "Inteface must be set if option is defined" *)
| ValueMustBeSet
    (* "Value must be set if option is defined and state is 'present'" *)
| Failed (e : Failure)
| BackupFailed
| WriteFailed.

(** What the file system does to this run, should the run get that far:
    whether [module.backup_local(dest)] completes and whether
    [write_changes] does.  The text of the file is a separate argument of
    [main]; a run whose file cannot be read has no text and is not a run of
    this model. *)
Record Disk : Type := mkDisk {
  backup_ok : bool;
  write_ok : bool
}.

(** A file system on which both steps complete. *)
Definition healthy : Disk := {| backup_ok := true; write_ok := true |}.

(** What a run of [main] amounts to: the failure, or the [changed] flag and
    the interfaces handed to [exit_json]; whether [backup_local] was
    called; and the bytes [write_changes] put in the file, if it ran. *)
Record Run : Type := mkRun {
  exit : MainFailure + bool * gmap string dict;
  backup_taken : bool;
  written : option string
}.

Definition fails (e : MainFailure) : Run :=
  {| exit := inl e; backup_taken := false; written := None |}.

(** [str(raw_value)] *)
Definition str (raw_value : option string) : string :=
  match raw_value with
  | Some s => s
  | None => "None"
  end.

(** [main()], given the parameters, the text of the file at [dest] and
    the behaviour of the file system.  A run that fails in [backup_local]
    has written nothing and has no backup; a run that fails in
    [write_changes] has its backup, if one was asked for, and leaves the
    file as it was ([atomic_move] is the last step, and the only one that
    touches [dest]). *)
Definition main (p : Params) (text : string) (d : Disk) : Run :=
  if decide (p_option p ≠ None ∧ p_iface p = None) then
    fails InterfaceMustBeSet
  else if decide (p_option p ≠ None ∧ p_state p = "present"
                  ∧ p_value p = None) then
    fails ValueMustBeSet
  else
    match read_interfaces_file text with
    | Err e => fails (Failed e)
    | Ok (lines, ifaces) =>
        match
          match p_option p with
          | Some o =>
              (* [iface] is not [None] here: the first check has passed *)
              ret (setInterfaceOption lines (str (p_iface p)) o
                     (str (p_value p)) (p_state p))
          | None => Ok (false, lines)
          end
        with
        | Err e => fails (Failed e)
        | Ok (changed, lines) =>
            match
              if changed then
                match read_interfaces_lines (line_of <$> lines) with
                | Ok (_, ifaces) => Ok ifaces
                | Err e => Err e
                end
              else Ok ifaces
            with
            | Err e => fails (Failed e)
            | Ok ifaces =>
                if changed && negb (p_check_mode p) then
                  if p_backup p && negb (backup_ok d) then
                    fails BackupFailed
                  else if negb (write_ok d) then
                    {| exit := inl WriteFailed;
                       backup_taken := p_backup p;
                       written := None |}
                  else
                    {| exit := inr (changed, ifaces);
                       backup_taken := p_backup p;
                       written := Some (write_changes (line_of <$> lines)) |}
                else
                  {| exit := inr (changed, ifaces);
                     backup_taken := false;
                     written := None |}
            end
        end
    end.

(** The same parameters, with check mode set or cleared. *)
Definition with_check_mode (b : bool) (p : Params) : Params :=
  {| p_iface := p_iface p; p_option := p_option p; p_value := p_value p;
     p_backup := p_backup p; p_state := p_state p; p_check_mode := b |}.


(** A run that sets the [mtu] of [eth0] to 9000, with a backup. *)
Definition set_mtu_9000 : Params :=
  {| p_iface := Some "eth0"; p_option := Some "mtu"; p_value := Some "9000";
     p_backup := true; p_state := "present"; p_check_mode := false |}.

(** * Evaluation of the primitives and of the scenarios *)

Example split_ex :
  Py.split "  iface   eth0	inet static
" = ["iface"; "eth0"; "inet"; "static"].
Proof. vm_compute. reflexivity. Qed.

Example find_ex :
  Py.find "    up ifconfig eth0 up" "up" = 4 /\
  Py.find_from "abc" "" 3 = 3 /\ Py.find_from "abc" "" 4 = -1 /\
  Py.find "abc" "x" = -1 /\ Py.find_from "abcabc" "bc" (-3) = 4.
Proof. vm_compute. repeat split. Qed.

Example slice_ex :
  Py.slice "abcdef" None (Some (-1)) = "abcde" /\
  Py.slice "abcdef" (Some (-1)) (Some 3) = "" /\
  Py.slice "abcdef" (Some 2) None = "cdef" /\
  Py.slice "abcdef" (Some 2) (Some 4) = "cd".
Proof. vm_compute. repeat split. Qed.

Example replace_ex :
  Py.replace "aaa" "aa" "b" = "ba" /\ Py.replace "ab" "" "-" = "-a-b-" /\
  Py.replace "" "" "x" = "x" /\ Py.replace "abc" "abcd" "x" = "abc".
Proof. vm_compute. repeat split. Qed.

Example readlines_ex :
  Py.readlines "a
b" = ["a
"; "b"].
Proof. vm_compute. reflexivity. Qed.

Example parse_ex :
  match read_interfaces_lines
          ["iface eth0 inet static" +:+ nl; "    address  10.0.0.1" +:+ nl] with
  | Ok (recs, ifs) =>
      Some (erase <$> recs, ifs !! "eth0" ≫= λ d, d !! "address")
  | Err _ => None
  end
  = Some ([ifaceDict ("iface eth0 inet static" +:+ nl) "eth0" ();
           optionDict ("    address  10.0.0.1" +:+ nl) "eth0" "address"
             "10.0.0.1"],
          Some "10.0.0.1").
Proof. vm_compute. reflexivity. Qed.

Example scenario_mtu :
  edit_file ("iface eth0 inet static" +:+ nl +:+ "    address 10.0.0.1" +:+ nl)
    "eth0" "mtu" "1500" "present"
  = Ok (true, ["iface eth0 inet static" +:+ nl; "    address 10.0.0.1" +:+ nl;
               "    mtu 1500" +:+ nl]).
Proof. vm_compute. reflexivity. Qed.

Example scenario_update :
  edit_file ("iface eth0 inet static" +:+ nl +:+ "	mtu   1500 " +:+ nl)
    "eth0" "mtu" "9000" "present"
  = Ok (true, ["iface eth0 inet static" +:+ nl; "	mtu   9000 " +:+ nl]).
Proof. vm_compute. reflexivity. Qed.

(** ** Facts about the Python primitives *)

Section Primitives.

Lemma string_app_cons (c : ascii) (s t : string) :
  String c s +:+ t = String c (s +:+ t).
Proof. reflexivity. Qed.

Lemma string_app_nil_r (s : string) : s +:+ "" = s.
Proof.
  induction s as [|c s IH]; [done|]. by rewrite string_app_cons, IH.
Qed.

Lemma string_app_assoc (a b c : string) : (a +:+ b) +:+ c = a +:+ (b +:+ c).
Proof.
  induction a as [|x a IH]; [done|]. by rewrite !string_app_cons, IH.
Qed.

(** Cutting a text into lines loses nothing. *)
Lemma readlines_go_concat (s cur : string) :
  write_changes (Py.readlines_go cur s) = cur +:+ s.
Proof.
  revert cur. induction s as [|c s IH]; intros cur; simpl.
  - case_decide as Hc; simpl.
    + by rewrite Hc.
    + by rewrite !string_app_nil_r.
  - destruct (Ascii.eqb c "010"); simpl; rewrite IH.
    + by rewrite string_app_assoc.
    + by rewrite string_app_assoc.
Qed.

Lemma readlines_concat (text : string) :
  write_changes (Py.readlines text) = text.
Proof. apply readlines_go_concat. Qed.

(** [l.index(x)] on the reversed list finds the last occurrence. *)
Lemma index_reverse_last {A} `{EqDecision A} (x : A) (l1 l2 : list A) :
  x ∉ l2 →
  Py.index x (reverse (l1 ++ x :: l2)) = Some (length l2).
Proof.
  intros Hnot. rewrite reverse_app, reverse_cons.
  rewrite <- (length_reverse l2).
  assert (Hr : x ∉ reverse l2) by (by rewrite elem_of_reverse).
  induction (reverse l2) as [|y r IH]; simpl.
  - by rewrite decide_True.
  - rewrite decide_False; [|intros ->; apply Hr; left].
    rewrite IH; [done|]. intros Hx. apply Hr. by right.
Qed.

End Primitives.

(** ** Facts about the parser *)

(** Splits a hypothesis [process_line st line = Ok st'] into the
    branches of the loop body. *)
Ltac process_line_cases H :=
  unfold process_line, currif_get, from_some, mbind, result_bind in H;
  destruct (Py.split _) as [|w0 args] eqn:Hwords; simplify_eq/=;
  repeat (case_decide; simplify_eq/=);
  repeat (case_match; simplify_eq/=).

Section Parser.

(** Every iteration that does not fail appends exactly one record, which
    holds the line as it was read, and counts the line. *)
Lemma process_line_appends (st st' : PState) (line : string) :
  process_line st line = Ok st' →
  ∃ r, lines st' = lines st ++ [r] ∧ line_of r = line ∧ i st' = S (i st).
Proof.
  intros H. process_line_cases H; eexists; (split; [reflexivity | done]).
Qed.

Lemma run_lines (line_strings : list string) (st st' : PState) :
  run st line_strings = Ok st' →
  line_of <$> lines st' = (line_of <$> lines st) ++ line_strings.
Proof.
  revert st. induction line_strings as [|l ls IH]; intros st H; simpl in H.
  - simplify_eq. by rewrite app_nil_r.
  - destruct (process_line st l) as [st1|e] eqn:Hl; simpl in H; [|done].
    apply process_line_appends in Hl as (r & Hr & Hline & _).
    rewrite (IH _ H), Hr, fmap_app. simpl. rewrite Hline.
    by rewrite <- app_assoc.
Qed.

Lemma resolve_line_of (h : list dict) (item : LineRecord nat) :
  line_of (resolve h item) = line_of item.
Proof. by destruct item. Qed.

Lemma resolve_lines_of (h : list dict) (l : list (LineRecord nat)) :
  line_of <$> (resolve h <$> l) = line_of <$> l.
Proof.
  induction l as [|r l IH]; [done|].
  rewrite !fmap_cons, resolve_line_of. by rewrite IH.
Qed.

Lemma resolve_iface_of (h : list dict) (item : LineRecord nat) :
  iface_of (resolve h item) = iface_of item.
Proof. by destruct item. Qed.

Lemma read_interfaces_lines_inv line_strings recs ifs :
  read_interfaces_lines line_strings = Ok (recs, ifs) →
  ∃ st, run initial line_strings = Ok st
        ∧ recs = resolve (heap st) <$> lines st
        ∧ ifs = deref (heap st) <$> ifaces st.
Proof.
  unfold read_interfaces_lines. intros H.
  destruct (run initial line_strings) as [st|e]; simpl in H; [|done].
  simplify_eq. by exists st.
Qed.

Lemma stanza_open_initial : stanza_open initial.
Proof. intros H. discriminate H. Qed.

Lemma stanza_open_step (st st' : PState) (line : string) :
  stanza_open st → process_line st line = Ok st' → stanza_open st'.
Proof.
  intros Hwf H. unfold stanza_open in *.
  process_line_cases H; try (intros; discriminate); try (by auto).
  - intros _. eexists _, _, _. split; [reflexivity|]. split.
    + rewrite lookup_app_r by lia. by rewrite Nat.sub_diag.
    + by simplify_map_eq.
  - intros _. destruct (decide (w0 = "name")) as [->|Hne].
    + eexists _, _, _. split; [reflexivity|]. split.
      * apply list_lookup_insert_eq. by eapply lookup_lt_Some.
      * by rewrite lookup_insert_eq.
    + eexists _, _, _. split; [reflexivity|]. split.
      * apply list_lookup_insert_eq. by eapply lookup_lt_Some.
      * by rewrite lookup_insert_ne.
Qed.

Lemma stanza_open_run (line_strings : list string) (st st' : PState) :
  stanza_open st → run st line_strings = Ok st' → stanza_open st'.
Proof.
  revert st. induction line_strings as [|l ls IH]; intros st Hwf H;
    simpl in H.
  - by simplify_eq.
  - destruct (process_line st l) as [st1|e] eqn:Hl; simpl in H; [|done].
    eauto using stanza_open_step.
Qed.

Lemma prefix_inv (p s : string) :
  String.prefix p s = true → ∃ t, s = p +:+ t.
Proof.
  rewrite String.prefix_correct. revert s.
  induction p as [|c p IH]; intros s H.
  - by exists s.
  - destruct s as [|c' s]; simpl in H; [done|]. simplify_eq.
    destruct (IH s) as [t Ht]; [done|]. exists t.
    by rewrite string_app_cons, <- Ht.
Qed.

End Parser.

(** ** The parser keeps every line *)

(** C4.  Whenever [read_interfaces_lines] returns, the records it returns
    hold the input lines verbatim, one record per line and in order, so
    that writing their [line] fields out one after the other gives back the
    text of the file that was read, byte for byte. *)
Theorem read_interfaces_lines_round_trip
    (line_strings : list string) (recs : list (LineRecord dict))
    (ifs : gmap string dict) :
  read_interfaces_lines line_strings = Ok (recs, ifs) →
  line_of <$> recs = line_strings
  ∧ length recs = length line_strings
  ∧ ∀ text, line_strings = Py.readlines text →
            write_changes (line_of <$> recs) = text.
Proof.
  intros H. apply read_interfaces_lines_inv in H as (st & Hrun & -> & _).
  assert (Hl : line_of <$> (resolve (heap st) <$> lines st) = line_strings).
  { rewrite resolve_lines_of. by apply run_lines in Hrun. }
  split; [done|]. split.
  - rewrite <- Hl. by rewrite !length_fmap.
  - intros text ->. rewrite Hl. apply readlines_concat.
Qed.

Lemma read_interfaces_lines_round_trip_witness :
  ∃ recs ifs,
    read_interfaces_lines (Py.readlines sample_text) = Ok (recs, ifs)
    ∧ write_changes (line_of <$> recs) = sample_text.
Proof.
  assert (Hok : is_ok (read_interfaces_lines (Py.readlines sample_text)) = true)
    by (vm_compute; reflexivity).
  destruct (read_interfaces_lines (Py.readlines sample_text))
    as [[recs ifs]|e] eqn:H; [|discriminate Hok].
  exists recs, ifs. split; [reflexivity|].
  exact (proj2 (proj2 (read_interfaces_lines_round_trip _ _ _ H)) _ eq_refl).
Defined.

(** ** Which first words change the parsing mode *)

(** C10.  In a state the parser can reach with an interface stanza open, a
    line whose first word begins with [allow-] without being [allow-]
    itself (such as [allow-hotplug eth0]) is recorded as an option of the
    open stanza, named by that first word and valued by the remaining words
    joined with single spaces, and the stanza stays open; and whenever an
    iteration changes the mode, the first word of its line is one of the
    eight literals. *)
Theorem allow_prefixed_word_is_an_option
    (before : list string) (st : PState) (line w : string)
    (args : list string) :
  run initial before = Ok st →
  currently_processing st = Some IFACE →
  Py.split line = w :: args →
  String.prefix "allow-" w = true →
  w ≠ "allow-" →
  (∃ name st',
      currif_get st "name" = Ok name
      ∧ process_line st line = Ok st'
      ∧ lines st' = lines st ++ [optionDict line name w (Py.join " " args)]
      ∧ currently_processing st' = Some IFACE)
  ∧ (∀ s l s', process_line s l = Ok s' →
               currently_processing s' ≠ currently_processing s →
               ∃ w' args', Py.split l = w' :: args' ∧ w' ∈ directives).
Proof.
  intros Hrun Hmode Hsplit Hpre Hne. split.
  - destruct (stanza_open_run _ _ _ stanza_open_initial Hrun Hmode)
      as (r & d & name & Hr & Hd & Hname).
    apply prefix_inv in Hpre as [t ->].
    exists name. unfold process_line, currif_get. rewrite Hsplit, Hmode, Hr.
    simpl. rewrite Hd. simpl. rewrite Hname. simpl.
    repeat (rewrite decide_False by (done || (intros ?; simplify_eq))).
    eexists. split; [done|]. split; [reflexivity|]. done.
  - intros s l s' H Hchg. unfold directives.
    unfold process_line, currif_get, from_some, mbind, result_bind in H.
    destruct (Py.split l) as [|w0 args0] eqn:Hwords; simplify_eq/=.
    exists w0, args0. split; [done|].
    repeat (case_decide; simplify_eq/=; try done;
            try (rewrite !elem_of_cons; tauto)).
    exfalso. destruct (currently_processing s) as [[]|] eqn:Hs;
      simplify_eq/=; repeat (case_match; simplify_eq/=); done.
Qed.

Lemma allow_prefixed_word_is_an_option_witness :
  ∃ st', process_line
           {| lines := [ifaceDict ("iface eth0 inet static" +:+ nl) "eth0" O];
              ifaces := {["eth0" := O]};
              heap := [<["method" := "static"]> (<["address_family" := "inet"]>
                         (<["name" := "eth0"]> ∅))];
              currif := Some O; currently_processing := Some IFACE; i := 1 |}
           ("allow-hotplug eth0" +:+ nl) = Ok st'
         ∧ lines st' = [ifaceDict ("iface eth0 inet static" +:+ nl) "eth0" O;
                        optionDict ("allow-hotplug eth0" +:+ nl) "eth0"
                          "allow-hotplug" "eth0"]
         ∧ currently_processing st' = Some IFACE.
Proof.
  destruct (allow_prefixed_word_is_an_option
              ["iface eth0 inet static" +:+ nl] _
              ("allow-hotplug eth0" +:+ nl) "allow-hotplug" ["eth0"]
              ltac:(vm_compute; reflexivity) eq_refl
              ltac:(vm_compute; reflexivity) ltac:(vm_compute; reflexivity)
              ltac:(discriminate))
    as [(name & st' & Hname & Hstep & Hlines & Hmode) _].
  exists st'. split; [exact Hstep|]. split; [|exact Hmode].
  rewrite Hlines. vm_compute in Hname. by simplify_eq.
Defined.

(** ** Facts about the editor *)

Section Editor.

Implicit Types (lines : list (LineRecord dict)) (item : LineRecord dict).

Lemma target_options_filter lines iface o :
  target_options_of lines iface o = filter (target iface o) lines.
Proof.
  unfold target_options_of, iface_options_of, iface_lines_of.
  rewrite !list_filter_filter. apply list_filter_iff.
  intros x. unfold target. tauto.
Qed.

Lemma target_inv iface o item :
  target iface o item ↔ ∃ l v, item = optionDict l iface o v.
Proof.
  unfold target, of_iface. split.
  - intros (Ho & _ & Hi). destruct item; simpl in *; try done.
    simplify_eq. eauto.
  - intros (l & v & ->). simpl. done.
Qed.

Lemma target_of_iface iface o item : target iface o item → of_iface iface item.
Proof. by intros (_ & _ & H). Qed.

(** Where the last element that a filter keeps sits in the list. *)
Lemma filter_last_split {A} (P : A → Prop) `{∀ x, Decision (P x)}
    (l : list A) (x : A) :
  last (filter P l) = Some x →
  ∃ l1 l2, l = l1 ++ x :: l2 ∧ P x ∧ filter P l2 = []
           ∧ filter P l = filter P l1 ++ [x].
Proof.
  induction l as [|y l IH] using rev_ind; [done|].
  rewrite filter_app, filter_cons, filter_nil.
  destruct (decide (P y)) as [Hy|Hy].
  - rewrite last_snoc. intros [= ->]. exists l, []. by rewrite filter_nil.
  - rewrite app_nil_r. intros Hl.
    destruct (IH Hl) as (l1 & l2 & -> & Hx & Hl2 & Hf).
    exists l1, (l2 ++ [y]). rewrite <- app_assoc. split; [done|].
    split; [done|]. split; [|done].
    by rewrite filter_app, Hl2, filter_cons, decide_False.
Qed.

(** Where the first element that a filter keeps sits in the list. *)
Lemma filter_head_split {A} (P : A → Prop) `{∀ x, Decision (P x)}
    (l : list A) (x : A) (rest : list A) :
  filter P l = x :: rest →
  ∃ l1 l2, l = l1 ++ x :: l2 ∧ P x ∧ filter P l1 = [] ∧ rest = filter P l2.
Proof.
  induction l as [|y l IH]; [done|].
  rewrite filter_cons. destruct (decide (P y)) as [Hy|Hy].
  - intros [= -> <-]. by exists [], l.
  - intros Hl. destruct (IH Hl) as (l1 & l2 & -> & Hx & Hl1 & Hr).
    exists (y :: l1), l2. split; [done|]. split; [done|]. split; [|done].
    by rewrite filter_cons, decide_False.
Qed.

Lemma filter_nil_not_elem {A} (P : A → Prop) `{∀ x, Decision (P x)}
    (l : list A) (x : A) :
  filter P l = [] → P x → x ∉ l.
Proof.
  intros Hf Hx Hin. assert (x ∈ filter P l) by (by apply list_elem_of_filter).
  rewrite Hf in *. by apply not_elem_of_nil in H0.
Qed.

(** [lines[len(lines) - lines[::-1].index(x) - 1] = y] and
    [lines.insert(len(lines) - lines[::-1].index(x), y)], when [x] does
    not occur after the position shown. *)
Lemma assign_at_last lines l1 l2 x y :
  lines = l1 ++ x :: l2 → x ∉ l2 →
  ∃ j, Py.index x (reverse lines) = Some j
       ∧ <[(length lines - j - 1)%nat := y]> lines = l1 ++ y :: l2
       ∧ Py.insert_at (length lines - j) y lines = l1 ++ x :: y :: l2.
Proof.
  intros -> Hx. exists (length l2). split; [by apply index_reverse_last|].
  rewrite length_app. simpl.
  replace (length l1 + S (length l2) - length l2 - 1)%nat
    with (length l1 + 0)%nat by lia.
  replace (length l1 + S (length l2) - length l2)%nat
    with (length (l1 ++ [x])) by (rewrite length_app; simpl; lia).
  split.
  - by rewrite insert_app_r.
  - unfold Py.insert_at.
    change (l1 ++ x :: l2) with (l1 ++ [x] ++ l2).
    rewrite (assoc_L (++) l1 [x] l2).
    rewrite take_app_length, drop_app_length. by rewrite <- app_assoc.
Qed.

Lemma length_lt_1 {A} (l : list A) : (length l < 1)%nat ↔ l = [].
Proof. destruct l; simpl; split; (done || lia). Qed.

Lemma iface_lines_nil lines iface :
  iface_lines_of lines iface = [] ↔ ∀ r, r ∈ lines → iface_of r ≠ Some iface.
Proof.
  unfold iface_lines_of. split.
  - intros Hf r Hr Hi. by apply (filter_nil_not_elem _ _ r Hf).
  - intros Hall. induction lines as [|r l IH]; [done|].
    rewrite filter_cons, decide_False.
    + apply IH. intros r' Hr'. apply Hall. by right.
    + apply Hall. left.
Qed.

Lemma targets_have_iface_lines lines iface o :
  target_options_of lines iface o ≠ [] → iface_lines_of lines iface ≠ [].
Proof.
  unfold target_options_of, iface_options_of. intros H Hn.
  rewrite Hn in H. by rewrite !filter_nil in H.
Qed.

(** *** What each branch of [setInterfaceOption] computes *)

Lemma set_not_found lines iface o v state :
  iface_lines_of lines iface = [] →
  setInterfaceOption lines iface o v state
  = mkOutcome lines (Err (FailJson (InterfaceNotFound iface))).
Proof.
  intros H. unfold setInterfaceOption.
  by rewrite decide_True by (by rewrite length_lt_1).
Qed.

Lemma set_unsupported lines iface o v state :
  iface_lines_of lines iface ≠ [] → state ≠ "present" → state ≠ "absent" →
  setInterfaceOption lines iface o v state
  = mkOutcome lines (Err (FailJson (UnsupportedState state))).
Proof.
  intros H Hp Ha. unfold setInterfaceOption.
  rewrite decide_False by (by rewrite length_lt_1).
  rewrite decide_False by done. by rewrite decide_False by done.
Qed.

Lemma set_absent_some lines iface o v t rest :
  target_options_of lines iface o = t :: rest →
  setInterfaceOption lines iface o v "absent"
  = mkOutcome lines (Ok (true, filter (λ l, l ≠ t) lines)).
Proof.
  intros H. unfold setInterfaceOption.
  rewrite decide_False
    by (rewrite length_lt_1; apply (targets_have_iface_lines _ _ o);
        by rewrite H).
  rewrite decide_False by done. rewrite decide_True by done.
  by rewrite H.
Qed.

Lemma set_absent_none lines iface o v :
  iface_lines_of lines iface ≠ [] →
  target_options_of lines iface o = [] →
  setInterfaceOption lines iface o v "absent"
  = mkOutcome lines (Ok (false, lines)).
Proof.
  intros Hi H. unfold setInterfaceOption.
  rewrite decide_False by (by rewrite length_lt_1).
  rewrite decide_False by done. rewrite decide_True by done.
  by rewrite H.
Qed.

Lemma set_present_same lines iface o v t :
  last (target_options_of lines iface o) = Some t →
  Py.split (value_of t) = Py.split v →
  setInterfaceOption lines iface o v "present"
  = mkOutcome lines (Ok (false, lines)).
Proof.
  intros Hl Hv. unfold setInterfaceOption.
  assert (Hne : target_options_of lines iface o ≠ [])
    by (intros Hn; by rewrite Hn in Hl).
  rewrite decide_False
    by (rewrite length_lt_1; by apply (targets_have_iface_lines _ _ o)).
  rewrite decide_True by done.
  rewrite decide_False by (by rewrite length_lt_1).
  rewrite Hl. by rewrite decide_False by (intros Hd; by apply Hd).
Qed.

Lemma set_present_update lines iface o v t :
  last (target_options_of lines iface o) = Some t →
  Py.split (value_of t) ≠ Py.split v →
  ∃ l1 l2,
    lines = l1 ++ t :: l2
    ∧ filter (target iface o) l2 = []
    ∧ target_options_of lines iface o = filter (target iface o) l1 ++ [t]
    ∧ let new := optionDict
                   (updated_option_line (line_of t) (value_of t) o v)
                   iface o v in
      setInterfaceOption lines iface o v "present"
      = mkOutcome (l1 ++ new :: l2) (Ok (true, l1 ++ new :: l2)).
Proof.
  intros Hl Hv.
  assert (Hne : target_options_of lines iface o ≠ [])
    by (intros Hn; by rewrite Hn in Hl).
  pose proof Hl as Hl'. rewrite target_options_filter in Hl'.
  apply filter_last_split in Hl' as (l1 & l2 & Hlines & Ht & Hl2 & Hf).
  exists l1, l2. split; [done|]. split; [done|].
  split; [by rewrite target_options_filter|].
  simpl. unfold setInterfaceOption.
  rewrite decide_False
    by (rewrite length_lt_1; by apply (targets_have_iface_lines _ _ o)).
  rewrite decide_True by done.
  rewrite decide_False by (by rewrite length_lt_1).
  rewrite Hl. rewrite decide_True by done.
  destruct (assign_at_last lines l1 l2 t
              (optionDict (updated_option_line (line_of t) (value_of t) o v)
                 iface o v) Hlines)
    as (j & Hj & Hassign & _).
  { by apply (filter_nil_not_elem (target iface o)). }
  by rewrite Hj, Hassign.
Qed.

Lemma set_present_insert lines iface o v a line :
  target_options_of lines iface o = [] →
  last (iface_lines_of lines iface) = Some a →
  new_option_line (line_of a)
    (bool_decide (length (iface_options_of lines iface) < 1)%nat) o v
  = Ok line →
  ∃ l1 l2,
    lines = l1 ++ a :: l2
    ∧ filter (of_iface iface) l2 = []
    ∧ setInterfaceOption lines iface o v "present"
      = mkOutcome (l1 ++ a :: optionDict line iface o v :: l2)
          (Ok (true, l1 ++ a :: optionDict line iface o v :: l2)).
Proof.
  intros Ht Hl Hline.
  assert (Hne : iface_lines_of lines iface ≠ [])
    by (intros Hn; by rewrite Hn in Hl).
  pose proof Hl as Hl'. unfold iface_lines_of in Hl'.
  apply filter_last_split in Hl' as (l1 & l2 & Hlines & Ha & Hl2 & Hf).
  exists l1, l2. split; [done|]. split; [done|].
  unfold setInterfaceOption.
  rewrite decide_False by (by rewrite length_lt_1).
  rewrite decide_True by done.
  rewrite decide_True by (by rewrite length_lt_1).
  rewrite Hl. simpl. rewrite Hline. simpl.
  destruct (assign_at_last lines l1 l2 a (optionDict line iface o v) Hlines)
    as (j & Hj & _ & Hins).
  { by apply (filter_nil_not_elem (of_iface iface)). }
  rewrite Hj. simpl. by rewrite Hins.
Qed.

Lemma set_present_insert_fails lines iface o v a e :
  target_options_of lines iface o = [] →
  last (iface_lines_of lines iface) = Some a →
  new_option_line (line_of a)
    (bool_decide (length (iface_options_of lines iface) < 1)%nat) o v
  = Err e →
  setInterfaceOption lines iface o v "present" = mkOutcome lines (Err e).
Proof.
  intros Ht Hl Hline.
  assert (Hne : iface_lines_of lines iface ≠ [])
    by (intros Hn; by rewrite Hn in Hl).
  unfold setInterfaceOption.
  rewrite decide_False by (by rewrite length_lt_1).
  rewrite decide_True by done.
  rewrite decide_True by (by rewrite length_lt_1).
  rewrite Hl. simpl. by rewrite Hline.
Qed.

Lemma last_is_Some {A} (l : list A) : l ≠ [] → ∃ x, last l = Some x.
Proof.
  intros H. destruct (last l) as [x|] eqn:Hl; [by exists x|].
  by apply last_None in Hl.
Qed.

Lemma filter_ne_id {A} `{EqDecision A} (x : A) (l : list A) :
  x ∉ l → filter (λ y, y ≠ x) l = l.
Proof.
  induction l as [|y l IH]; [done|]. intros Hx.
  rewrite filter_cons, decide_True.
  - rewrite IH; [done|]. intros ?. apply Hx. by right.
  - intros ->. apply Hx. left.
Qed.

Lemma filter_ne_middle {A} `{EqDecision A} (x : A) (l1 l2 : list A) :
  x ∉ l1 → x ∉ l2 → filter (λ y, y ≠ x) (l1 ++ x :: l2) = l1 ++ l2.
Proof.
  intros H1 H2. rewrite filter_app, filter_cons, decide_False by (by intros ?).
  by rewrite !filter_ne_id.
Qed.

End Editor.

(** ** Removing an option *)

(** C1, as stated, fails: when the two [mtu] lines of an interface are the
    same text, [absent] removes both records in one call, not exactly one. *)
Lemma absent_removes_identical_duplicates_together :
  is_ok (read_interfaces_lines duplicated_mtu) = true
  ∧ erase <$> target_options_of (parsed duplicated_mtu) "eth0" "mtu"
    = [optionDict ("    mtu 1500" +:+ nl) "eth0" "mtu" "1500";
       optionDict ("    mtu 1500" +:+ nl) "eth0" "mtu" "1500"]
  ∧ returned (setInterfaceOption (parsed duplicated_mtu) "eth0" "mtu" "None"
                "absent")
    = Some (true, [ifaceDict ("iface eth0 inet static" +:+ nl) "eth0" ()])
  ∧ ret (setInterfaceOption (parsed duplicated_mtu) "eth0" "mtu" "None"
           "absent")
    ≠ Ok (true, remove_first_target "eth0" "mtu" (parsed duplicated_mtu)).
Proof.
  split; [by vm_compute|]. split; [by vm_compute|]. split; [by vm_compute|].
  intros H.
  apply (f_equal (λ r, match r with
                       | Ok (_, out) => length out
                       | Err _ => O
                       end)) in H.
  vm_compute in H. discriminate H.
Qed.

(** C1, amended.  When the interface carries the option on at least one
    option record, [absent] returns [changed = True] and the sequence
    without the records equal to the first target record (equal in line
    text, interface, option name and value), every other record kept in
    order, and does not touch the caller's list.  When no later target
    record is equal to the first one, exactly that one record is removed,
    the remaining duplicates are the targets of the result, and a second
    identical call removes the next of them in the same way. *)
Theorem absent_removes_records_equal_to_first_target
    (lines : list (LineRecord dict)) (iface o v : string)
    (t : LineRecord dict) (rest : list (LineRecord dict)) :
  target_options_of lines iface o = t :: rest →
  setInterfaceOption lines iface o v "absent"
  = mkOutcome lines (Ok (true, filter (λ l, l ≠ t) lines))
  ∧ (t ∉ rest →
     ∃ l1 l2,
       lines = l1 ++ t :: l2
       ∧ filter (λ l, l ≠ t) lines = l1 ++ l2
       ∧ l1 ++ l2 = remove_first_target iface o lines
       ∧ target_options_of (l1 ++ l2) iface o = rest
       ∧ ∀ t' rest', rest = t' :: rest' →
           ret (setInterfaceOption (l1 ++ l2) iface o v "absent")
           = Ok (true, filter (λ l, l ≠ t') (l1 ++ l2))).
Proof.
  intros Ht. split; [by eapply set_absent_some|]. intros Hrest.
  pose proof Ht as Hf. rewrite target_options_filter in Hf.
  apply filter_head_split in Hf as (l1 & l2 & -> & Htt & Hl1 & ->).
  assert (H1 : t ∉ l1) by (by apply (filter_nil_not_elem (target iface o))).
  assert (H2 : t ∉ l2).
  { intros Hin. apply Hrest. by apply list_elem_of_filter. }
  assert (Htargets : target_options_of (l1 ++ l2) iface o
                     = filter (target iface o) l2).
  { by rewrite target_options_filter, filter_app, Hl1. }
  exists l1, l2. split; [done|]. split; [by apply filter_ne_middle|].
  split; [|split; [done|]].
  - clear -Hl1 Htt. induction l1 as [|r l1 IH]; simpl.
    + by rewrite decide_True.
    + rewrite filter_cons in Hl1. destruct (decide (target iface o r)); [done|].
      by rewrite IH.
  - intros t' rest' Hr. rewrite <- Htargets in Hr.
    by rewrite (set_absent_some _ _ _ _ _ _ Hr).
Qed.

Lemma absent_removes_records_equal_to_first_target_witness :
  ret (setInterfaceOption two_mtu "eth0" "mtu" "None" "absent")
  = Ok (true, [ifaceDict ("iface eth0 inet static" +:+ nl) "eth0" ∅;
               optionDict ("    mtu 9000" +:+ nl) "eth0" "mtu" "9000"]).
Proof.
  rewrite (proj1 (absent_removes_records_equal_to_first_target two_mtu
                    "eth0" "mtu" "None"
                    (optionDict ("    mtu 1500" +:+ nl) "eth0" "mtu" "1500")
                    [optionDict ("    mtu 9000" +:+ nl) "eth0" "mtu" "9000"]
                    ltac:(vm_compute; reflexivity))).
  vm_compute. reflexivity.
Defined.

(** ** Failures *)

(** C8, as stated, fails: the interface is looked up before the state is,
    so a call with an unknown interface and an unknown state ends with
    "interface not found", not with "unsupported state". *)
Lemma unknown_interface_comes_before_unknown_state :
  "restart" ≠ "present" ∧ "restart" ≠ "absent"
  ∧ ret (setInterfaceOption eth0_static "eth1" "mtu" "1500" "restart")
    = Err (FailJson (InterfaceNotFound "eth1"))
  ∧ ret (setInterfaceOption eth0_static "eth1" "mtu" "1500" "restart")
    ≠ Err (FailJson (UnsupportedState "restart")).
Proof.
  split; [discriminate|]. split; [discriminate|].
  split; [by vm_compute|]. intros H. vm_compute in H. discriminate H.
Qed.

(** C8, amended.  A call naming an interface that no [iface] record and no
    option record of the sequence carries fails with "interface not found",
    whatever the state; a call naming an interface that is there, with a
    state that is neither [present] nor [absent], fails with "unsupported
    state".  Both failures reach the caller and leave the caller's list as
    it was. *)
Theorem failures_leave_the_lines_alone
    (lines : list (LineRecord dict)) (iface o v state : string) :
  ((∀ r, r ∈ lines → iface_of r ≠ Some iface) →
   setInterfaceOption lines iface o v state
   = mkOutcome lines (Err (FailJson (InterfaceNotFound iface))))
  ∧ ((∃ r, r ∈ lines ∧ iface_of r = Some iface) →
     state ≠ "present" → state ≠ "absent" →
     setInterfaceOption lines iface o v state
     = mkOutcome lines (Err (FailJson (UnsupportedState state)))).
Proof.
  split.
  - intros H. apply set_not_found. by apply iface_lines_nil.
  - intros (r & Hr & Hi) Hp Ha. apply set_unsupported; [|done..].
    rewrite iface_lines_nil. intros Hall. by apply (Hall r).
Qed.

Lemma failures_leave_the_lines_alone_witness :
  setInterfaceOption eth0_static "eth1" "mtu" "1500" "present"
  = mkOutcome eth0_static (Err (FailJson (InterfaceNotFound "eth1")))
  ∧ setInterfaceOption eth0_static "eth0" "mtu" "1500" "restart"
    = mkOutcome eth0_static (Err (FailJson (UnsupportedState "restart"))).
Proof.
  split.
  - apply (proj1 (failures_leave_the_lines_alone eth0_static "eth1" "mtu"
                    "1500" "present")).
    intros r Hr. unfold eth0_static in Hr.
    rewrite !elem_of_cons in Hr.
    destruct Hr as [->|[->|Hr]]; [done|done|by apply not_elem_of_nil in Hr].
  - apply (proj2 (failures_leave_the_lines_alone eth0_static "eth0" "mtu"
                    "1500" "restart")); [|done|done].
    eexists. split; [left|reflexivity].
Defined.

(** ** What an edit leaves untouched *)

(** C7, as stated, fails: a removal is not of a single record.  On an
    interface whose two [mtu] lines are the same text, the [absent] edit
    succeeds and returns the [iface] line alone; whichever record is taken
    for the single removed one, the line texts of the result are not those
    of the other records, since the second [mtu] record is gone too. *)
Lemma absent_edit_drops_a_record_besides_the_removed_one :
  is_ok (read_interfaces_lines duplicated_mtu) = true
  ∧ line_of <$> parsed duplicated_mtu = duplicated_mtu
  ∧ ∃ out,
      ret (setInterfaceOption (parsed duplicated_mtu) "eth0" "mtu" "None"
             "absent") = Ok (true, out)
      ∧ line_of <$> out = ["iface eth0 inet static" +:+ nl]
      ∧ ¬ ∃ l1 removed l2,
            parsed duplicated_mtu = l1 ++ removed :: l2
            ∧ line_of <$> out = line_of <$> (l1 ++ l2).
Proof.
  split; [by vm_compute|].
  assert (Hlines : line_of <$> parsed duplicated_mtu = duplicated_mtu)
    by (vm_compute; reflexivity).
  split; [exact Hlines|].
  assert (Hp : (match ret (setInterfaceOption (parsed duplicated_mtu) "eth0"
                             "mtu" "None" "absent") with
                | Ok (c, out) => Some (c, line_of <$> out)
                | Err _ => None
                end) = Some (true, ["iface eth0 inet static" +:+ nl]))
    by (vm_compute; reflexivity).
  destruct (ret (setInterfaceOption (parsed duplicated_mtu) "eth0" "mtu"
                   "None" "absent")) as [[c out]|e]; [|discriminate Hp].
  injection Hp as -> Hout.
  exists out. split; [reflexivity|]. split; [exact Hout|].
  intros (l1 & removed & l2 & Hsplit & Hrest).
  rewrite Hsplit in Hlines. rewrite Hout in Hrest.
  apply (f_equal length) in Hlines, Hrest.
  rewrite !length_fmap, !length_app in *. simpl in Hlines, Hrest. lia.
Qed.

(** C7, amended.  Whenever [setInterfaceOption] returns, the returned
    sequence is the given one, or the given one with one record put in
    between two neighbours (state [present], option not there yet), or with
    one record replaced in place (state [present], option there with
    another value), or with every record equal to one of its option records
    taken out (state [absent]; records of the same line text, interface,
    option and value go together).  Every record that is not equal to the
    one put in, replaced or taken out is in the result as it was, line text
    included, and in the same order. *)
Theorem untouched_lines_are_preserved
    (lines : list (LineRecord dict)) (iface o v state : string)
    (changed : bool) (out : list (LineRecord dict)) :
  ret (setInterfaceOption lines iface o v state) = Ok (changed, out) →
  (changed = false ∧ out = lines)
  ∨ (changed = true ∧ state = "present"
     ∧ ∃ l1 l2 line, lines = l1 ++ l2
                     ∧ out = l1 ++ optionDict line iface o v :: l2)
  ∨ (changed = true ∧ state = "present"
     ∧ ∃ l1 old l2 line, lines = l1 ++ old :: l2
                         ∧ out = l1 ++ optionDict line iface o v :: l2)
  ∨ (changed = true ∧ state = "absent"
     ∧ ∃ old, old ∈ lines ∧ target iface o old
              ∧ out = filter (λ l, l ≠ old) lines).
Proof.
  intros H.
  destruct (decide (iface_lines_of lines iface = [])) as [Hi|Hi].
  { by rewrite set_not_found in H. }
  destruct (decide (state = "present")) as [->|Hp].
  - destruct (last (target_options_of lines iface o)) as [t|] eqn:Ht.
    + destruct (decide (Py.split (value_of t) = Py.split v)) as [Hv|Hv].
      * rewrite (set_present_same _ _ _ _ _ Ht Hv) in H. simplify_eq/=.
        by left.
      * destruct (set_present_update _ _ _ _ _ Ht Hv)
          as (l1 & l2 & Hl & _ & _ & Hset).
        simpl in Hset. rewrite Hset in H. simplify_eq/=.
        right. right. left. eauto 10.
    + apply last_None in Ht.
      destruct (last_is_Some _ Hi) as [a Ha].
      destruct (new_option_line (line_of a)
                  (bool_decide (length (iface_options_of lines iface) < 1)%nat)
                  o v) as [line|e] eqn:Hline.
      * destruct (set_present_insert _ _ _ _ _ _ Ht Ha Hline)
          as (l1 & l2 & Hl & _ & Hset).
        rewrite Hset in H. simplify_eq/=.
        right. left. split; [done|]. split; [done|].
        exists (l1 ++ [a]), l2, line. by rewrite <- !app_assoc.
      * by rewrite (set_present_insert_fails _ _ _ _ _ _ Ht Ha Hline) in H.
  - destruct (decide (state = "absent")) as [->|Ha].
    + destruct (target_options_of lines iface o) as [|t rest] eqn:Ht.
      * rewrite (set_absent_none _ _ _ _ Hi Ht) in H. simplify_eq/=. by left.
      * rewrite (set_absent_some _ _ _ _ _ _ Ht) in H. simplify_eq/=.
        right. right. right. split; [done|]. split; [done|].
        exists t.
        assert (Hin : t ∈ filter (target iface o) lines).
        { rewrite <- target_options_filter, Ht. left. }
        apply list_elem_of_filter in Hin as [Htt Hin]. done.
    + by rewrite (set_unsupported _ _ _ _ _ Hi Hp Ha) in H.
Qed.

Lemma untouched_lines_are_preserved_witness :
  ∃ l1 l2 line,
    eth0_static = l1 ++ l2
    ∧ [ifaceDict ("iface eth0 inet static" +:+ nl) "eth0" ∅;
       optionDict ("    address 10.0.0.1" +:+ nl) "eth0" "address" "10.0.0.1";
       optionDict ("    mtu 1500" +:+ nl) "eth0" "mtu" "1500"]
      = l1 ++ optionDict line "eth0" "mtu" "1500" :: l2.
Proof.
  destruct (untouched_lines_are_preserved eth0_static "eth0" "mtu" "1500"
              "present" true
              [ifaceDict ("iface eth0 inet static" +:+ nl) "eth0" ∅;
               optionDict ("    address 10.0.0.1" +:+ nl) "eth0" "address"
                 "10.0.0.1";
               optionDict ("    mtu 1500" +:+ nl) "eth0" "mtu" "1500"]
              ltac:(vm_compute; reflexivity))
    as [[H _]|[(_ & _ & H)|[(_ & _ & l1 & old & l2 & line & H1 & H2)
                           |(_ & H & _)]]].
  - discriminate H.
  - exact H.
  - exfalso. apply (f_equal length) in H1, H2.
    rewrite length_app in H1, H2. simpl in H1, H2. lia.
  - discriminate H.
Defined.

(** ** Setting an option twice *)

Section Twice.

Lemma process_line_words (st st' : PState) (line : string) :
  process_line st line = Ok st' →
  ∃ r, lines st' = lines st ++ [r] ∧ has_words r.
Proof.
  intros H. unfold has_words.
  process_line_cases H; eexists; (split; [reflexivity|]); simpl;
    try done; intros _; by rewrite Hwords.
Qed.

Lemma run_words (line_strings : list string) (st st' : PState) :
  Forall has_words (lines st) → run st line_strings = Ok st' →
  Forall has_words (lines st').
Proof.
  revert st. induction line_strings as [|l ls IH]; intros st Hall H;
    simpl in H.
  - by simplify_eq.
  - destruct (process_line st l) as [st1|e] eqn:Hl; simpl in H; [|done].
    apply (IH st1); [|done].
    apply process_line_words in Hl as (r & -> & Hr).
    apply Forall_app. split; [done|]. by apply Forall_singleton.
Qed.

Lemma parsed_records_have_words line_strings recs ifs :
  read_interfaces_lines line_strings = Ok (recs, ifs) →
  Forall has_words recs.
Proof.
  intros H. apply read_interfaces_lines_inv in H as (st & Hrun & -> & _).
  apply run_words in Hrun; [|by apply Forall_nil].
  apply Forall_fmap. eapply Forall_impl; [exact Hrun|].
  intros r Hr. unfold has_words in *. simpl.
  by rewrite resolve_iface_of, resolve_line_of.
Qed.

Lemma new_option_line_ok (last_line : string) (b : bool) (o v : string) :
  Py.split last_line ≠ [] → is_Some_result (new_option_line last_line b o v).
Proof.
  intros H. unfold new_option_line, is_Some_result.
  destruct (Py.split last_line) as [|w ws] eqn:Hw; [done|].
  destruct (last_is_Some (w :: ws)) as [x Hx]; [done|].
  simpl head. rewrite Hx. simpl. eauto.
Qed.

End Twice.

(** C6, as stated, fails: when the option already has the value, the first
    call reports no change. *)
Lemma present_first_call_can_report_no_change :
  is_ok (read_interfaces_lines eth0_mtu) = true
  ∧ returned (setInterfaceOption (parsed eth0_mtu) "eth0" "mtu" "1500" "present")
    = Some (false, [ifaceDict ("iface eth0 inet static" +:+ nl) "eth0" ();
                    optionDict ("    mtu 1500" +:+ nl) "eth0" "mtu" "1500"])
  ∧ ∀ out, ret (setInterfaceOption (parsed eth0_mtu) "eth0" "mtu" "1500"
                  "present") ≠ Ok (true, out).
Proof.
  split; [by vm_compute|]. split; [by vm_compute|].
  intros out H.
  apply (f_equal (λ r, match r with Ok (c, _) => c | Err _ => true end)) in H.
  vm_compute in H. discriminate H.
Qed.

(** C6, amended.  On the records of a successful parse, for an interface
    that has a record among them, a call with state [present] returns; it
    reports no change exactly when the last record of the interface for
    that option already has the value (both split into words), and a change
    otherwise; and a second call with the same arguments on the sequence it
    returned reports no change and returns that sequence as it is. *)
Theorem present_twice
    (line_strings : list string) (lines : list (LineRecord dict))
    (ifs : gmap string dict) (iface o v : string) :
  read_interfaces_lines line_strings = Ok (lines, ifs) →
  iface_lines_of lines iface ≠ [] →
  ∃ changed out,
    setInterfaceOption lines iface o v "present"
    = mkOutcome out (Ok (changed, out))
    ∧ (changed = false ↔
       ∃ t, last (target_options_of lines iface o) = Some t
            ∧ Py.split (value_of t) = Py.split v)
    ∧ setInterfaceOption out iface o v "present"
      = mkOutcome out (Ok (false, out)).
Proof.
  intros Hparse Hi.
  destruct (last (target_options_of lines iface o)) as [t|] eqn:Ht.
  - destruct (decide (Py.split (value_of t) = Py.split v)) as [Hv|Hv].
    + exists false, lines.
      rewrite (set_present_same _ _ _ _ _ Ht Hv).
      split; [done|]. split; [|done]. split; [|done]. intros _. by exists t.
    + destruct (set_present_update _ _ _ _ _ Ht Hv)
        as (l1 & l2 & Hl & Hl2 & _ & Hset). simpl in Hset.
      eexists true, _. split; [exact Hset|]. split.
      * split; [done|]. intros (t' & [= <-] & Hv'). done.
      * eapply set_present_same.
        -- rewrite target_options_filter, filter_app, filter_cons, Hl2.
           rewrite decide_True by (apply target_inv; eauto).
           by rewrite last_snoc.
        -- done.
  - apply last_None in Ht.
    destruct (last_is_Some _ Hi) as [a Ha].
    assert (Hwords : Py.split (line_of a) ≠ []).
    { pose proof (parsed_records_have_words _ _ _ Hparse) as Hall.
      rewrite Forall_forall in Hall.
      assert (Hin : a ∈ iface_lines_of lines iface).
      { apply last_Some in Ha as [l' ->]. apply elem_of_app. right. left. }
      apply list_elem_of_filter in Hin as [Hia Hin].
      apply (Hall a Hin). unfold of_iface in Hia. by rewrite Hia. }
    destruct (new_option_line_ok (line_of a)
                (bool_decide (length (iface_options_of lines iface) < 1)%nat)
                o v Hwords) as [line Hline].
    destruct (set_present_insert _ _ _ _ _ _ Ht Ha Hline)
      as (l1 & l2 & Hl & Hl2 & Hset).
    eexists true, _. split; [exact Hset|]. split.
    + split; [done|]. intros (t' & Ht' & _). discriminate Ht'.
    + rewrite target_options_filter in Ht. rewrite Hl in Ht.
      rewrite filter_app, filter_cons in Ht.
      apply app_eq_nil in Ht as [Ht1 Ht2].
      destruct (decide (target iface o a)); [done|].
      eapply set_present_same.
      * rewrite target_options_filter, filter_app, filter_cons, Ht1.
        rewrite decide_False by done.
        rewrite filter_cons, Ht2.
        rewrite decide_True by (apply target_inv; eauto).
        done.
      * done.
Qed.

Lemma present_twice_witness :
  ∃ lines ifs changed out,
    read_interfaces_lines eth0_mtu = Ok (lines, ifs)
    ∧ setInterfaceOption lines "eth0" "mtu" "9000" "present"
      = mkOutcome out (Ok (changed, out))
    ∧ setInterfaceOption out "eth0" "mtu" "9000" "present"
      = mkOutcome out (Ok (false, out)).
Proof.
  assert (Hok : is_ok (read_interfaces_lines eth0_mtu) = true)
    by (vm_compute; reflexivity).
  destruct (read_interfaces_lines eth0_mtu) as [[lines ifs]|e] eqn:H;
    [|discriminate Hok].
  assert (Hl : lines = parsed eth0_mtu) by (unfold parsed; by rewrite H).
  destruct (present_twice eth0_mtu lines ifs "eth0" "mtu" "9000" H)
    as (changed & out & H1 & _ & H2).
  { rewrite Hl. intros Hn. apply (f_equal length) in Hn.
    vm_compute in Hn. discriminate Hn. }
  exists lines, ifs, changed, out. split; [reflexivity|]. by split.
Defined.

(** ** Where the code departs from what it sets out to do *)

(** An [iface] line with more than four words is reported with the number
    of its words, [iface] included, and the number of the line; one with
    fewer than four words never reaches the report: unpacking
    [words[1:4]] into three names raises [ValueError] first. *)
Lemma iface_line_with_wrong_word_count
    (st : PState) (line : string) (args : list string) :
  Py.split line = "iface" :: args →
  length args ≠ 3%nat →
  process_line st line
  = Err (if decide (length args < 3)%nat then ValueError
         else FailJson (IncorrectNumberOfParameters (S (length args))
                          (S (i st)))).
Proof.
  intros Hw Hlen. unfold process_line. rewrite Hw. simpl.
  destruct args as [|a1 [|a2 [|a3 [|a4 rest]]]]; simpl in *; try done.
Qed.

(** C2, on the code: the five-word line [iface eth0 inet static dhcp] is
    reported with the count 5 (its words), not 4 (its arguments), and the
    two-word line [iface eth0] ends the parse with an uncaught [ValueError]
    instead of the report. *)
Theorem malformed_iface_line_reports
  : read_interfaces_lines iface_five_words
    = Err (FailJson (IncorrectNumberOfParameters 5 1))
    ∧ read_interfaces_lines iface_two_words = Err ValueError.
Proof. split; by vm_compute. Qed.

(** C3, on the code: the search for the old value starts on the last byte
    of the option name, not after it.  Setting [up] from [p] to [q] on the
    line [up p] rewrites the name ([uq p]); giving a value to an option
    line that has none puts it inside the name; and when the old value, as
    rejoined with single spaces, is not in the line at all, the search
    result [-1] is used as a position and the new value is not written. *)
Theorem update_searches_from_last_byte_of_name
  : returned (setInterfaceOption (parsed up_p) "eth0" "up" "q" "present")
    = Some (true, [ifaceDict ("iface eth0 inet static" +:+ nl) "eth0" ();
                   optionDict ("    uq p" +:+ nl) "eth0" "up" "q"])
    ∧ returned (setInterfaceOption (parsed flag_option) "eth0" "bridge_hw"
                  "on" "present")
      = Some (true, [ifaceDict ("iface eth0 inet static" +:+ nl) "eth0" ();
                     optionDict ("    bridge_honw" +:+ nl) "eth0"
                       "bridge_hw" "on"])
    ∧ returned (setInterfaceOption (parsed two_nameservers) "eth0"
                  "dns-nameservers" "1.1.1.1" "present")
      = Some (true, [ifaceDict ("iface eth0 inet static" +:+ nl) "eth0" ();
                     optionDict
                       ("    dns-nameservers 8.8.8.8  8.8.4.4"
                        +:+ "rvers 8.8.8.8  8.8.4.4" +:+ nl)
                       "eth0" "dns-nameservers" "1.1.1.1"]).
Proof. repeat split; by vm_compute. Qed.

(** C5, on the code: the suffix starts after the first place where the
    text of the last word occurs in the anchor line, which need not be the
    last word.  After [up ip link set eth0 up] the new [mtu] line takes
    everything that follows the first [up] as its suffix. *)
Theorem insert_takes_suffix_after_first_occurrence
  : returned (setInterfaceOption (parsed link_up) "eth0" "mtu" "1500" "present")
    = Some (true, [ifaceDict ("iface eth0 inet static" +:+ nl) "eth0" ();
                   optionDict ("    up ip link set eth0 up" +:+ nl) "eth0"
                     "up" "ip link set eth0 up";
                   optionDict ("    mtu 1500 ip link set eth0 up" +:+ nl)
                     "eth0" "mtu" "1500"]).
Proof. by vm_compute. Qed.

(** C9, on the code: the options of a stanza are stored in the dictionary
    that also holds the interface's [name], and the interface of an option
    record is read from there.  After an option line [name foo] the
    records of the following option lines carry the interface [foo],
    although the stanza open above them is [eth0]. *)
Theorem option_named_name_renames_the_stanza
  : is_ok (read_interfaces_lines option_called_name) = true
    ∧ erase <$> parsed option_called_name
      = [ifaceDict ("iface eth0 inet static" +:+ nl) "eth0" ();
         optionDict ("    name foo" +:+ nl) "eth0" "name" "foo";
         optionDict ("    mtu 1500" +:+ nl) "foo" "mtu" "1500"].
Proof. split; by vm_compute. Qed.


(** ** The back references when no option is called [name] *)

Section BackReferences.

Lemma back_references_app {P} (a b : list (LineRecord P)) (open : option string) :
  back_references open (a ++ b)
  ↔ back_references open a ∧ back_references (open_after open a) b.
Proof.
  revert open. induction a as [|r a IH]; intros open; simpl.
  - tauto.
  - destruct r; rewrite IH; tauto.
Qed.

Lemma open_after_app {P} (a b : list (LineRecord P)) (open : option string) :
  open_after open (a ++ b) = open_after (open_after open a) b.
Proof.
  revert open. induction a as [|r a IH]; intros open; simpl; [done|].
  destruct r; by rewrite IH.
Qed.

Lemma resolve_back_references (h : list dict) (l : list (LineRecord nat))
    (open : option string) :
  back_references open (resolve h <$> l) ↔ back_references open l.
Proof.
  revert open. induction l as [|r l IH]; intros open; simpl; [done|].
  destruct r; simpl; rewrite IH; tauto.
Qed.

Lemma comment_is_no_directive (line w : string) (args : list string) :
  Py.split line = w :: args → String.get 0 w = Some "#"%char →
  is_directive line = false.
Proof.
  intros Hw Hc. unfold is_directive. rewrite Hw.
  apply bool_decide_eq_false. unfold directives. rewrite !elem_of_cons.
  intros H. repeat (destruct H as [->|H]; [discriminate Hc|]).
  by apply not_elem_of_nil in H.
Qed.

Lemma is_directive_true (line w : string) (args : list string) :
  Py.split line = w :: args → w ∈ directives → is_directive line = true.
Proof.
  intros Hw Hin. unfold is_directive. rewrite Hw. by apply bool_decide_eq_true.
Qed.

Lemma is_directive_false (line w : string) (args : list string) :
  Py.split line = w :: args → w ∉ directives → is_directive line = false.
Proof.
  intros Hw Hin. unfold is_directive. rewrite Hw. by apply bool_decide_eq_false.
Qed.

Lemma names_agree_step (st st' : PState) (line : string) :
  head (Py.split line) ≠ Some "name" →
  names_agree st → process_line st line = Ok st' → names_agree st'.
Proof.
  intros Hname [Hrefs Hopen] H. unfold names_agree.
  assert (Hd : ∀ w args, Py.split line = w :: args → w ∈ directives →
               back_references None (lines st ++ [lineDict line])
               ∧ open_after None (lines st ++ [@lineDict nat line]) = None).
  { intros w args Hw Hin. rewrite back_references_app, open_after_app. simpl.
    by rewrite (is_directive_true _ _ _ Hw Hin). }
  assert (Hn : is_directive line = false →
               back_references None (lines st ++ [lineDict line])
               ∧ open_after None (lines st ++ [@lineDict nat line])
                 = open_after None (lines st)).
  { intros Hf. rewrite back_references_app, open_after_app. simpl.
    by rewrite Hf. }
  process_line_cases H;
    try (destruct (Hd _ _ eq_refl) as [? _];
         [solve [unfold directives; repeat (first [by left | right])]
         | by split]).
  - (* blank line *)
    destruct Hn as [? Ho]; [unfold is_directive; by rewrite Hwords|].
    split; [done|]. rewrite Ho. exact Hopen.
  - (* comment *)
    destruct Hn as [? Ho]; [by eapply comment_is_no_directive|].
    split; [done|]. rewrite Ho. exact Hopen.
  - (* iface *)
    rewrite back_references_app, open_after_app. simpl.
    split; [done|]. intros _. eexists _, _, _. split; [reflexivity|].
    split; [rewrite lookup_app_r by lia; by rewrite Nat.sub_diag|].
    split; [by simplify_map_eq|done].
  - (* other first word, in a mapping *)
    destruct Hn as [? Ho]; [|by split].
    eapply is_directive_false; [done|]. unfold directives.
    rewrite !elem_of_cons, elem_of_nil. tauto.
  - (* other first word, after a directive *)
    destruct Hn as [? Ho]; [|by split].
    eapply is_directive_false; [done|]. unfold directives.
    rewrite !elem_of_cons, elem_of_nil. tauto.
  - (* option of the open stanza *)
    destruct Hopen as (r & d & name & Hr & Hd' & Hnm & Ho); [done|].
    simplify_eq. rewrite back_references_app, open_after_app. simpl.
    split; [by rewrite Ho|]. intros _. eexists _, _, _.
    split; [reflexivity|].
    split; [apply list_lookup_insert_eq; by eapply lookup_lt_Some|].
    split; [|done]. rewrite lookup_insert_ne; [done|].
    intros ->. by apply Hname.
Qed.

(** Without an option line called [name], the claim of C9 holds of every
    parse: each option record carries the interface of the most recent
    [iface] record above it, and no line starting with one of the eight
    literals lies between the two. *)
Lemma back_references_without_name_option
    (line_strings : list string) (recs : list (LineRecord dict))
    (ifs : gmap string dict) :
  Forall (λ l, head (Py.split l) ≠ Some "name") line_strings →
  read_interfaces_lines line_strings = Ok (recs, ifs) →
  back_references None recs.
Proof.
  intros Hall H. apply read_interfaces_lines_inv in H as (st & Hrun & -> & _).
  apply resolve_back_references.
  assert (Hinit : names_agree initial) by (split; [done|intros ?; done]).
  revert Hrun Hinit. generalize initial.
  induction Hall as [|l ls Hl Hls IH]; intros st0 Hrun Hinv; simpl in Hrun.
  - simplify_eq. by destruct Hinv.
  - destruct (process_line st0 l) as [st1|e] eqn:Hp; simpl in Hrun; [|done].
    eauto using names_agree_step.
Qed.

End BackReferences.

(** * Further properties of the parser *)

Section ParserRuns.

Lemma run_app (a b : list string) (st : PState) :
  run st (a ++ b) = run st a ≫= λ st', run st' b.
Proof.
  revert st. induction a as [|l a IH]; intros st; simpl; [done|].
  destruct (process_line st l) as [st1|e]; simpl; [apply IH|done].
Qed.

Lemma run_counts (line_strings : list string) (st st' : PState) :
  run st line_strings = Ok st' →
  i st' = (i st + length line_strings)%nat
  ∧ ∃ more, lines st' = lines st ++ more ∧ length more = length line_strings.
Proof.
  revert st. induction line_strings as [|l ls IH]; intros st H; simpl in H.
  - simplify_eq. split; [simpl; lia|]. exists []. by rewrite app_nil_r.
  - destruct (process_line st l) as [st1|e] eqn:Hl; simpl in H; [|done].
    apply process_line_appends in Hl as (r & Hr & _ & Hi).
    destruct (IH _ H) as (Hi' & more & Hm & Hlen). split; [simpl; lia|].
    exists (r :: more). rewrite Hm, Hr, <- app_assoc. split; [done|].
    simpl. by rewrite Hlen.
Qed.

(** Where a run fails: after a prefix that was read, on one line. *)
Lemma run_fails_on_a_line (line_strings : list string) (st : PState)
    (e : Failure) :
  run st line_strings = Err e →
  ∃ before line rest st1,
    line_strings = before ++ line :: rest
    ∧ run st before = Ok st1 ∧ process_line st1 line = Err e.
Proof.
  revert st. induction line_strings as [|l ls IH]; intros st H; simpl in H;
    [done|].
  destruct (process_line st l) as [st1|e'] eqn:Hl; simpl in H.
  - destruct (IH _ H) as (before & line & rest & st2 & -> & Hb & Hp).
    exists (l :: before), line, rest, st2. split; [done|].
    split; [|done]. simpl. by rewrite Hl.
  - simplify_eq. by exists [], l, ls, st.
Qed.

Lemma blank_or_comment_step (st : PState) (line : string) :
  blank_or_comment line →
  process_line st line
  = Ok (append_line st (S (i st)) (lineDict line) (currently_processing st)).
Proof.
  unfold blank_or_comment, process_line.
  destruct (Py.split line) as [|w ws]; [done|]. intros H.
  by rewrite decide_True.
Qed.

Lemma blank_or_comment_run (line_strings : list string) (st : PState) :
  Forall blank_or_comment line_strings →
  run st line_strings
  = Ok {| lines := lines st ++ (lineDict <$> line_strings);
          ifaces := ifaces st; heap := heap st; currif := currif st;
          currently_processing := currently_processing st;
          i := (i st + length line_strings)%nat |}.
Proof.
  intros Hall. revert st.
  induction Hall as [|l ls Hl Hls IH]; intros st; simpl.
  - rewrite app_nil_r, Nat.add_0_r. by destruct st.
  - rewrite (blank_or_comment_step _ _ Hl). simpl. rewrite IH. simpl.
    rewrite <- app_assoc. simpl. do 2 f_equal. lia.
Qed.

(** Until a directive has been read, only blank lines and comments have
    been. *)
Lemma no_mode_yet (line_strings : list string) (st : PState) :
  run initial line_strings = Ok st →
  currently_processing st = None →
  Forall blank_or_comment line_strings.
Proof.
  assert (Hgen : ∀ ls st0 st1,
            run st0 ls = Ok st1 → currently_processing st1 = None →
            currently_processing st0 = None ∧ Forall blank_or_comment ls).
  { induction ls as [|l ls IH]; intros st0 st1 H Hm; simpl in H.
    - by simplify_eq.
    - destruct (process_line st0 l) as [st2|e] eqn:Hl; simpl in H; [|done].
      destruct (IH _ _ H Hm) as [Hm2 Hall].
      assert (currently_processing st0 = None ∧ blank_or_comment l)
        as [? ?]; [|by split; [|constructor]].
      unfold blank_or_comment. clear -Hl Hm2.
      process_line_cases Hl; try done.
      all: by destruct (currently_processing st0) as [[]|]. }
  intros H Hm. by destruct (Hgen _ _ _ H Hm).
Qed.

End ParserRuns.

(** X1.  A file of blank lines and comments only (the empty file among
    them) parses: every line becomes an unknown record holding it, and the
    interface map is empty. *)
Theorem comments_and_blank_lines_only (line_strings : list string) :
  Forall blank_or_comment line_strings →
  read_interfaces_lines line_strings = Ok (lineDict <$> line_strings, ∅).
Proof.
  intros Hall. unfold read_interfaces_lines.
  rewrite (blank_or_comment_run _ _ Hall). simpl.
  rewrite fmap_empty. do 2 f_equal.
  induction line_strings as [|l ls IH]; [done|].
  inversion Hall; subst. simpl. f_equal. by apply IH.
Qed.

Lemma comments_and_blank_lines_only_witness :
  read_interfaces_lines ["# the loopback" +:+ nl; nl; "   "]
  = Ok ([lineDict ("# the loopback" +:+ nl); lineDict nl; lineDict "   "], ∅).
Proof.
  apply (comments_and_blank_lines_only ["# the loopback" +:+ nl; nl; "   "]).
  repeat constructor; by vm_compute.
Defined.

(** X2.  When only blank lines and comments come first, a line whose first
    word is neither a comment nor one of the eight literals ends the parse
    with "misplaced option", carrying the line and its number counted from
    1, whatever follows it. *)
Theorem option_before_any_directive
    (before rest : list string) (line w : string) (args : list string) :
  Forall blank_or_comment before →
  Py.split line = w :: args →
  String.get 0 w ≠ Some "#"%char →
  w ∉ directives →
  read_interfaces_lines (before ++ line :: rest)
  = Err (FailJson (MisplacedOption line (S (length before)))).
Proof.
  intros Hall Hw Hc Hd. unfold read_interfaces_lines.
  rewrite run_app, (blank_or_comment_run _ _ Hall). simpl.
  unfold process_line. rewrite Hw. simpl.
  unfold directives in Hd. rewrite !elem_of_cons, elem_of_nil in Hd.
  repeat (rewrite decide_False by tauto). done.
Qed.

Lemma option_before_any_directive_witness :
  read_interfaces_lines ["# eth0" +:+ nl; "  address 10.0.0.1" +:+ nl;
                         "iface eth0 inet static" +:+ nl]
  = Err (FailJson (MisplacedOption ("  address 10.0.0.1" +:+ nl) 2)).
Proof.
  apply (option_before_any_directive ["# eth0" +:+ nl]
           ["iface eth0 inet static" +:+ nl] ("  address 10.0.0.1" +:+ nl)
           "address" ["10.0.0.1"]).
  - repeat constructor; by vm_compute.
  - by vm_compute.
  - discriminate.
  - unfold directives. rewrite !elem_of_cons, elem_of_nil.
    intros H. repeat (destruct H as [H|H]; [discriminate H|]). done.
Defined.

(** X3.  A parse that fails on some lines fails in the same way on every
    input that starts with them: the lines after the first bad one are
    never looked at. *)
Theorem failure_is_decided_by_the_prefix (a b : list string) (e : Failure) :
  read_interfaces_lines a = Err e → read_interfaces_lines (a ++ b) = Err e.
Proof.
  unfold read_interfaces_lines. intros H. rewrite run_app.
  destruct (run initial a) as [st|e'] eqn:Ha; simpl in *; [done|].
  by simplify_eq.
Qed.

Lemma failure_is_decided_by_the_prefix_witness :
  read_interfaces_lines (iface_five_words ++ ["iface eth0 inet static" +:+ nl])
  = Err (FailJson (IncorrectNumberOfParameters 5 1)).
Proof.
  apply (failure_is_decided_by_the_prefix iface_five_words). by vm_compute.
Defined.

Lemma erase_resolve (h : list dict) (l : list (LineRecord nat)) :
  erase <$> (resolve h <$> l) = erase <$> l.
Proof.
  induction l as [|r l IH]; [done|]. rewrite !fmap_cons, IH. by destruct r.
Qed.

(** X4.  When a parse of [a ++ b] succeeds, so does the parse of [a], and
    its records are, but for what the [params] of the [iface] records hold,
    the first records of the longer parse. *)
Theorem records_of_a_prefix_stay
    (a b : list string) (recs : list (LineRecord dict))
    (ifs : gmap string dict) :
  read_interfaces_lines (a ++ b) = Ok (recs, ifs) →
  ∃ recs_a ifs_a,
    read_interfaces_lines a = Ok (recs_a, ifs_a)
    ∧ erase <$> recs_a = take (length a) (erase <$> recs).
Proof.
  intros H. apply read_interfaces_lines_inv in H as (st & Hrun & -> & _).
  rewrite run_app in Hrun.
  destruct (run initial a) as [st1|e] eqn:Ha; simpl in Hrun; [|done].
  unfold read_interfaces_lines. rewrite Ha. simpl. eexists _, _.
  split; [reflexivity|].
  destruct (run_counts _ _ _ Ha) as (_ & ma & Hma & Hla). simpl in Hma.
  destruct (run_counts _ _ _ Hrun) as (_ & more & Hm & _).
  rewrite !erase_resolve, Hm, fmap_app.
  rewrite take_app_length'; [done|]. by rewrite length_fmap, Hma.
Qed.

Lemma records_of_a_prefix_stay_witness :
  ∃ recs_a ifs_a,
    read_interfaces_lines ["iface eth0 inet static" +:+ nl] = Ok (recs_a, ifs_a)
    ∧ erase <$> recs_a
      = [ifaceDict ("iface eth0 inet static" +:+ nl) "eth0" ()].
Proof.
  assert (Hok : is_ok (read_interfaces_lines
                         (["iface eth0 inet static" +:+ nl]
                          ++ ["    mtu 1500" +:+ nl])) = true)
    by (vm_compute; reflexivity).
  destruct (read_interfaces_lines (["iface eth0 inet static" +:+ nl]
                                   ++ ["    mtu 1500" +:+ nl]))
    as [[recs ifs]|e] eqn:H; [|discriminate Hok].
  destruct (records_of_a_prefix_stay _ _ _ _ H) as (ra & ia & Ha & He).
  exists ra, ia. split; [exact Ha|]. rewrite He.
  assert (Hr : recs = parsed (["iface eth0 inet static" +:+ nl]
                              ++ ["    mtu 1500" +:+ nl]))
    by (unfold parsed; by rewrite H).
  rewrite Hr. by vm_compute.
Defined.

(** X5.  The parser fails in three ways only, each on the first line that
    cannot be read after a prefix that can: "misplaced option" for a line
    that is no comment and no directive when only blank lines and comments
    came before; "incorrect number of parameters", with the number of
    words and the number of the line, for an [iface] line of more than four
    words; [ValueError] for an [iface] line of fewer than four. *)
Theorem parse_fails_in_three_ways (line_strings : list string) (e : Failure) :
  read_interfaces_lines line_strings = Err e →
  ∃ before line rest,
    line_strings = before ++ line :: rest
    ∧ is_ok (read_interfaces_lines before) = true
    ∧ ((e = FailJson (MisplacedOption line (S (length before)))
        ∧ Forall blank_or_comment before
        ∧ ∃ w args, Py.split line = w :: args
                    ∧ String.get 0 w ≠ Some "#"%char ∧ w ∉ directives)
       ∨ (∃ args, Py.split line = "iface" :: args ∧ (3 < length args)%nat
                  ∧ e = FailJson (IncorrectNumberOfParameters
                                    (S (length args)) (S (length before))))
       ∨ (∃ args, Py.split line = "iface" :: args ∧ (length args < 3)%nat
                  ∧ e = ValueError)).
Proof.
  unfold read_interfaces_lines. intros H.
  destruct (run initial line_strings) as [st|e'] eqn:Hrun; simpl in H;
    [done|]. simplify_eq.
  apply run_fails_on_a_line in Hrun
    as (before & line & rest & st1 & -> & Hb & Hp).
  exists before, line, rest. split; [done|].
  split; [by rewrite Hb|].
  destruct (run_counts _ _ _ Hb) as (Hi & _). simpl in Hi.
  pose proof (stanza_open_run _ _ _ stanza_open_initial Hb) as Hopen.
  unfold stanza_open in Hopen.
  process_line_cases Hp;
    first
      [ (* fewer than four words *)
        right; right; eexists; split; [done|]; split; [|done];
        destruct args as [|? [|? [|? [|? ?]]]]; simplify_eq/=; lia
      | (* more than four words *)
        right; left; eexists; split; [done|]; rewrite Hi; split; [|done];
        destruct args as [|? [|? [|? [|? ?]]]]; simplify_eq/=; lia
      | (* a stanza is open: the option is recorded *)
        destruct Hopen as (r & d & name & ? & ? & ?); [done|]; by simplify_eq
      | (* nothing was open *)
        left; rewrite Hi; split; [done|];
        split; [by eapply no_mode_yet|];
        eexists _, _; split; [done|]; split; [done|];
        unfold directives; rewrite !elem_of_cons, elem_of_nil; tauto ].
Qed.

Lemma parse_fails_in_three_ways_witness :
  ∃ before line rest,
    iface_two_words = before ++ line :: rest
    ∧ is_ok (read_interfaces_lines before) = true.
Proof.
  destruct (parse_fails_in_three_ways iface_two_words ValueError
              ltac:(vm_compute; reflexivity))
    as (before & line & rest & H1 & H2 & _).
  by exists before, line, rest.
Defined.

Lemma process_line_agrees (st st' : PState) (line : string) :
  process_line st line = Ok st' →
  ∃ r, lines st' = lines st ++ [r] ∧ agrees_with_line r.
Proof.
  intros H. process_line_cases H; eexists; (split; [reflexivity|]); simpl;
    try done.
  - destruct args as [|? [|? [|? [|? ?]]]]; simplify_eq/=. eauto.
  - eexists. split; [done|]. split; [done|]. split; [|done].
    unfold directives. rewrite !elem_of_cons, elem_of_nil. tauto.
Qed.

Lemma resolve_agrees (h : list dict) (r : LineRecord nat) :
  agrees_with_line r → agrees_with_line (resolve h r).
Proof. by destruct r. Qed.

Lemma run_agrees (line_strings : list string) (st st' : PState) :
  Forall agrees_with_line (lines st) → run st line_strings = Ok st' →
  Forall agrees_with_line (lines st').
Proof.
  revert st. induction line_strings as [|l ls IH]; intros st Hall H;
    simpl in H.
  - by simplify_eq.
  - destruct (process_line st l) as [st2|e] eqn:Hl; simpl in H; [|done].
    apply (IH st2); [|done].
    apply process_line_agrees in Hl as (r & -> & Hr).
    apply Forall_app. split; [done|]. by apply Forall_singleton.
Qed.

(** X6.  The records of a parse hold what their lines say: an [iface]
    record the second word of a line of exactly the four words [iface],
    name, family, method; an option record the first word of its line,
    which is no directive and no comment, and the remaining words joined by
    single spaces. *)
Theorem records_agree_with_their_lines
    (line_strings : list string) (recs : list (LineRecord dict))
    (ifs : gmap string dict) :
  read_interfaces_lines line_strings = Ok (recs, ifs) →
  Forall agrees_with_line recs.
Proof.
  intros H. apply read_interfaces_lines_inv in H as (st & Hrun & -> & _).
  apply Forall_fmap. eapply Forall_impl; [|intros r; apply resolve_agrees].
  apply (run_agrees line_strings initial st); [apply Forall_nil_2|done].
Qed.

Lemma records_agree_with_their_lines_witness :
  ∃ recs ifs,
    read_interfaces_lines eth0_mtu = Ok (recs, ifs)
    ∧ Forall agrees_with_line recs.
Proof.
  assert (Hok : is_ok (read_interfaces_lines eth0_mtu) = true)
    by (vm_compute; reflexivity).
  destruct (read_interfaces_lines eth0_mtu) as [[recs ifs]|e] eqn:H;
    [|discriminate Hok].
  exists recs, ifs. split; [reflexivity|].
  exact (records_agree_with_their_lines _ _ _ H).
Defined.


Section StanzaDictionaries.

Lemma stanza_dicts_app {P} (a b : list (LineRecord P)) (acc : list dict) :
  stanza_dicts acc (a ++ b) = stanza_dicts (stanza_dicts acc a) b.
Proof.
  revert acc. induction a as [|r a IH]; intros acc; [done|].
  destruct r; simpl; apply IH.
Qed.

Lemma stanza_dicts_resolve (h : list dict) (l : list (LineRecord nat))
    (acc : list dict) :
  stanza_dicts acc (resolve h <$> l) = stanza_dicts acc l.
Proof.
  revert acc. induction l as [|r l IH]; intros acc; [done|].
  destruct r; simpl; apply IH.
Qed.

Lemma params_resolve (h : list dict) (l : list (LineRecord nat)) :
  omap params_of (resolve h <$> l) = deref h <$> omap params_of l.
Proof.
  induction l as [|r l IH]; [done|].
  destruct r; csimpl; rewrite ?IH; done.
Qed.

Lemma params_named_resolve (h : list dict) (n : string)
    (l : list (LineRecord nat)) :
  params_named n (resolve h <$> l) = deref h <$> params_named n l.
Proof.
  unfold params_named. induction l as [|r l IH]; [done|].
  destruct r; csimpl; rewrite ?IH; try done.
  case_decide; csimpl; by rewrite ?IH.
Qed.

Lemma deref_all (h : list dict) : deref h <$> seq 0 (length h) = h.
Proof.
  apply list_eq. intros k. rewrite list_lookup_fmap.
  destruct (decide (k < length h)%nat) as [Hk|Hk].
  - rewrite lookup_seq_lt by done. simpl. unfold deref.
    destruct (lookup_lt_is_Some_2 h k Hk) as [d Hd]. by rewrite Hd.
  - rewrite lookup_seq_ge by lia. simpl. symmetry.
    apply lookup_ge_None. lia.
Qed.

Lemma store_agrees_step (st st' : PState) (line : string) :
  store_agrees st → process_line st line = Ok st' → store_agrees st'.
Proof.
  intros (Hh & Hp & Hc & Hi) H. unfold store_agrees.
  assert (Hu : ∀ m, store_agrees
                 (append_line st (S (i st)) (lineDict line) m)).
  { intros m. unfold store_agrees, params_named. simpl.
    rewrite stanza_dicts_app, !omap_app. simpl.
    rewrite !app_nil_r. split; [done|]. split; [done|]. split; [done|].
    intros n. rewrite omap_app. simpl. rewrite app_nil_r. apply Hi. }
  process_line_cases H; try exact (Hu None).
  - (* iface *)
    destruct args as [|? [|? [|? [|? ?]]]]; simplify_eq/=.
    rewrite stanza_dicts_app, omap_app, <- Hh, Hp. simpl.
    unfold header_dict. rewrite Hwords. split; [done|].
    rewrite length_app. simpl. rewrite Nat.add_1_r, seq_S. split; [done|].
    split; [intros r [= <-]; done|].
    intros n. unfold params_named. rewrite omap_app. simpl.
    destruct (decide (s = n)) as [->|Hn].
    + by rewrite lookup_insert_eq, last_snoc.
    + rewrite lookup_insert_ne by done. rewrite app_nil_r. apply Hi.
  - (* option *)
    rewrite stanza_dicts_app, omap_app, <- Hh, Hp, length_insert. simpl.
    rewrite app_nil_r. split; [|split; [done|split; [done|]]].
    + unfold set_last. specialize (Hc _ eq_refl).
      assert (Hl : last (heap st) = Some a1).
      { rewrite last_lookup. rewrite <- Hc. simpl. done. }
      rewrite Hl, <- Hc. simpl. by rewrite Nat.sub_0_r.
    + intros n. unfold params_named. rewrite omap_app. simpl.
      rewrite app_nil_r. apply Hi.
Qed.

Lemma store_agrees_run (line_strings : list string) (st : PState) :
  run initial line_strings = Ok st → store_agrees st.
Proof.
  assert (Hgen : ∀ ls st0 st1, store_agrees st0 → run st0 ls = Ok st1 →
                 store_agrees st1).
  { induction ls as [|l ls IH]; intros st0 st1 Hs H; simpl in H.
    - by simplify_eq.
    - destruct (process_line st0 l) as [st2|e] eqn:Hl; simpl in H; [|done].
      eauto using store_agrees_step. }
  apply Hgen. unfold store_agrees. simpl. split; [done|]. split; [done|].
  split; [done|]. intros n. by rewrite lookup_empty.
Qed.

(** X7.  The [params] of the [iface] records of a parse are, in order, the
    stanzas' dictionaries as the records give them: the three fields of
    the header, then the options of the option records up to the next
    [iface] record, a later value for a key replacing an earlier one (the
    keys [name], [address_family] and [method] included). *)
Theorem params_are_header_then_options
    (line_strings : list string) (recs : list (LineRecord dict))
    (ifs : gmap string dict) :
  read_interfaces_lines line_strings = Ok (recs, ifs) →
  omap params_of recs = stanza_dicts [] recs.
Proof.
  intros H. apply read_interfaces_lines_inv in H as (st & Hrun & -> & _).
  destruct (store_agrees_run _ _ Hrun) as (Hh & Hp & _ & _).
  by rewrite params_resolve, stanza_dicts_resolve, Hp, deref_all.
Qed.

(** X8.  The interface map of a parse has, for each name, what the last
    [iface] record of that name holds under [params], and no entry for a
    name that no [iface] record carries: a stanza repeated under the same
    name hides the earlier one. *)
Theorem interface_map_holds_last_stanza
    (line_strings : list string) (recs : list (LineRecord dict))
    (ifs : gmap string dict) (n : string) :
  read_interfaces_lines line_strings = Ok (recs, ifs) →
  ifs !! n = last (params_named n recs).
Proof.
  intros H. apply read_interfaces_lines_inv in H as (st & Hrun & -> & ->).
  destruct (store_agrees_run _ _ Hrun) as (_ & _ & _ & Hi).
  by rewrite lookup_fmap, Hi, params_named_resolve, fmap_last.
Qed.

End StanzaDictionaries.

(** * Further properties of the editor *)

Section EditorBranches.

Lemma new_option_line_fails (last_line : string) (b : bool) (o v : string)
    (e : Failure) :
  new_option_line last_line b o v = Err e →
  e = IndexError ∧ Py.split last_line = [].
Proof.
  unfold new_option_line. destruct (Py.split last_line) as [|w ws] eqn:Hw.
  - simpl. by intros [= <-].
  - destruct (last_is_Some (w :: ws)) as [x Hx]; [done|].
    simpl head. rewrite Hx. simpl. done.
Qed.

(** Every call ends in one of the eight ways. *)
Lemma setInterfaceOption_ends (lines : list (LineRecord dict))
    (iface o v state : string) :
  Edit lines iface o v state (setInterfaceOption lines iface o v state).
Proof.
  destruct (decide (iface_lines_of lines iface = [])) as [Hi|Hi].
  { rewrite set_not_found by done. by constructor. }
  destruct (decide (state = "present")) as [->|Hp].
  - destruct (last (target_options_of lines iface o)) as [t|] eqn:Ht.
    + destruct (decide (Py.split (value_of t) = Py.split v)) as [Hv|Hv].
      * rewrite (set_present_same _ _ _ _ _ Ht Hv). by econstructor.
      * destruct (set_present_update _ _ _ _ _ Ht Hv)
          as (l1 & l2 & Hl & Hl2 & _ & Hset).
        simpl in Hset. rewrite Hset. by econstructor.
    + apply last_None in Ht.
      destruct (last_is_Some _ Hi) as [a Ha].
      destruct (new_option_line (line_of a)
                  (bool_decide (length (iface_options_of lines iface) < 1)%nat)
                  o v) as [line|e] eqn:Hline.
      * destruct (set_present_insert _ _ _ _ _ _ Ht Ha Hline)
          as (l1 & l2 & Hl & Hl2 & Hset).
        rewrite Hset. by econstructor.
      * rewrite (set_present_insert_fails _ _ _ _ _ _ Ht Ha Hline).
        apply new_option_line_fails in Hline as [-> Hw]. by econstructor.
  - destruct (decide (state = "absent")) as [->|Ha].
    + destruct (target_options_of lines iface o) as [|t rest] eqn:Ht.
      * rewrite (set_absent_none _ _ _ _ Hi Ht). by constructor.
      * rewrite (set_absent_some _ _ _ _ _ _ Ht). by econstructor.
    + rewrite (set_unsupported _ _ _ _ _ Hi Hp Ha). by constructor.
Qed.

End EditorBranches.

(** Replaces the call in [H] by any outcome [r] the call can end in, and
    goes through the ways it can end. *)
Ltac edit_cases H :=
  match type of H with
  | context [setInterfaceOption ?l ?i ?o ?v ?s] =>
      let E := fresh "E" in
      pose proof (setInterfaceOption_ends l i o v s) as E;
      revert H E; generalize (setInterfaceOption l i o v s);
      intros r H E;
      inversion E
        as [ s' Hi | s' Hi Hp Ha | Hi Ht | t rest Ht | t Ht Hv
           | t l1 l2 Ht Hv Hl Hl2 new | a l1 l2 line Ht Ha Hl Hl2 Hline new
           | a Ht Ha Hw ];
      subst; simpl in H; simplify_eq
  end.

Lemma target_in_lines (lines : list (LineRecord dict)) iface o t rest :
  target_options_of lines iface o = t :: rest → t ∈ lines ∧ target iface o t.
Proof.
  intros Ht. assert (Hin : t ∈ filter (target iface o) lines).
  { rewrite <- target_options_filter, Ht. left. }
  by apply list_elem_of_filter in Hin as [? ?].
Qed.

Lemma not_in_filter_ne {A} `{EqDecision A} (x : A) (l : list A) :
  x ∉ filter (λ y, y ≠ x) l.
Proof. rewrite list_elem_of_filter. by intros [? ?]. Qed.

(** X9.  The [changed] flag is exact: a call that returns reports a change
    if and only if the sequence it returns differs from the one given. *)
Theorem changed_flag_is_exact lines iface o v state changed out :
  ret (setInterfaceOption lines iface o v state) = Ok (changed, out) →
  changed = true ↔ out ≠ lines.
Proof.
  intros H. edit_cases H.
  - split; [done|]. intros Hn. by destruct Hn.
  - split; [|done]. intros _ Heq.
    apply target_in_lines in Ht as [Hin _].
    rewrite <- Heq in Hin. by apply not_in_filter_ne in Hin.
  - split; [done|]. intros Hn. by destruct Hn.
  - split; [|done]. intros _ Heq. apply app_inv_head in Heq.
    injection Heq as Heq. apply Hv. by rewrite <- Heq.
  - split; [|done]. intros _ Heq. apply (f_equal length) in Heq.
    rewrite !length_app in Heq. simpl in Heq. lia.
Qed.

Lemma changed_flag_is_exact_witness :
  [ifaceDict ("iface eth0 inet static" +:+ nl) "eth0" ∅;
   optionDict ("    mtu 9000" +:+ nl) "eth0" "mtu" "9000"] ≠ two_mtu.
Proof.
  apply (changed_flag_is_exact two_mtu "eth0" "mtu" "None" "absent" true).
  - by vm_compute.
  - reflexivity.
Defined.

(** X10.  After any call with state [present] that returns, the last
    option record of the interface for that option has the requested
    value, up to the spacing between its words. *)
Theorem present_leaves_the_value lines iface o v changed out :
  ret (setInterfaceOption lines iface o v "present") = Ok (changed, out) →
  ∃ t, last (target_options_of out iface o) = Some t
       ∧ Py.split (value_of t) = Py.split v.
Proof.
  intros H. edit_cases H.
  - by exists t.
  - exists new. split; [|reflexivity]. subst new.
    rewrite target_options_filter, filter_app, filter_cons, Hl2.
    rewrite decide_True by (apply target_inv; eauto).
    by rewrite last_snoc.
  - exists new. split; [|reflexivity]. subst new.
    rewrite target_options_filter in Ht |- *.
    rewrite filter_app, filter_cons in Ht.
    apply app_eq_nil in Ht as [Ht1 Ht2].
    destruct (decide (target iface o a)); [done|].
    rewrite filter_app, filter_cons, Ht1, decide_False by done.
    rewrite filter_cons, Ht2.
    by rewrite decide_True by (apply target_inv; eauto).
Qed.

Lemma present_leaves_the_value_witness :
  ∃ t, last (target_options_of
               [ifaceDict ("iface eth0 inet static" +:+ nl) "eth0" ∅;
                optionDict ("    mtu 1500" +:+ nl) "eth0" "mtu" "1500";
                optionDict ("    mtu 1400" +:+ nl) "eth0" "mtu" "1400"]
               "eth0" "mtu") = Some t
       ∧ Py.split (value_of t) = Py.split "1400".
Proof.
  apply (present_leaves_the_value two_mtu "eth0" "mtu" "1400" true).
  by vm_compute.
Defined.

(** X11.  A call that returns leaves the records of every other interface
    and the unknown records alone: they are the same, in the same order,
    before and after. *)
Theorem other_records_keep_their_place lines iface o v state changed out :
  ret (setInterfaceOption lines iface o v state) = Ok (changed, out) →
  filter (λ r, iface_of r ≠ Some iface) out
  = filter (λ r, iface_of r ≠ Some iface) lines.
Proof.
  intros H. edit_cases H; try done.
  - apply target_in_lines in Ht as [_ (_ & _ & Hi)].
    rewrite list_filter_filter. apply list_filter_iff.
    intros x. split; [tauto|]. intros Hx. split; [done|].
    intros ->. by apply Hx.
  - assert (Hi : iface_of t = Some iface).
    { rewrite target_options_filter in Ht.
      apply filter_last_split in Ht as (? & ? & ? & (_ & _ & Hi) & _).
      exact Hi. }
    rewrite !filter_app, !filter_cons.
    rewrite !decide_False; [done|..]; intros Hn; by apply Hn.
  - subst new. rewrite !filter_app, !filter_cons.
    rewrite (decide_False (P := iface_of (optionDict _ _ _ _) ≠ _));
      [done|]. intros Hn. by apply Hn.
Qed.


Lemma other_records_keep_their_place_witness :
  filter (λ r, iface_of r ≠ Some "eth0")
    [ifaceDict ("iface eth0 inet static" +:+ nl) "eth0" ∅;
     optionDict ("    mtu 9000" +:+ nl) "eth0" "mtu" "9000"]
  = filter (λ r, iface_of r ≠ Some "eth0") two_mtu.
Proof.
  apply (other_records_keep_their_place two_mtu "eth0" "mtu" "None" "absent"
           true).
  by vm_compute.
Defined.

(** X12.  With state [present] the caller's list is edited in place: after
    the call it is the returned sequence.  With any other state, and
    whenever the call fails, the caller's list is as it was; [absent]
    returns a new list. *)
Theorem present_edits_in_place_absent_copies lines iface o v state :
  let r := setInterfaceOption lines iface o v state in
  (∀ changed out, state = "present" → ret r = Ok (changed, out) →
                  caller_lines r = out)
  ∧ (state ≠ "present" → caller_lines r = lines)
  ∧ (∀ e, ret r = Err e → caller_lines r = lines).
Proof.
  simpl. pose proof (setInterfaceOption_ends lines iface o v state) as E.
  revert E. generalize (setInterfaceOption lines iface o v state).
  intros r E. inversion E; subst; simpl; repeat split; intros; simplify_eq;
    done.
Qed.

Lemma filter_ne_commutes {A} `{EqDecision A} (P : A → Prop)
    `{∀ x, Decision (P x)} (t : A) (l : list A) :
  filter P (filter (λ y, y ≠ t) l) = filter (λ y, y ≠ t) (filter P l).
Proof.
  rewrite !list_filter_filter. apply list_filter_iff. intros x. tauto.
Qed.

Lemma targets_after_removal (lines : list (LineRecord dict)) iface o t rest :
  target_options_of lines iface o = t :: rest →
  target_options_of (filter (λ l, l ≠ t) lines) iface o
  = filter (λ l, l ≠ t) (target_options_of lines iface o)
  ∧ (length (target_options_of (filter (λ l, l ≠ t) lines) iface o)
     < length (target_options_of lines iface o))%nat.
Proof.
  intros Ht. rewrite !target_options_filter, filter_ne_commutes.
  split; [done|]. rewrite target_options_filter in Ht. rewrite Ht.
  rewrite filter_cons, decide_False by (intros Hn; by apply Hn).
  simpl. pose proof (length_filter (λ l, l ≠ t) rest). lia.
Qed.

(** X13.  A call with state [absent] reports no change exactly when the
    interface has no record for the option; otherwise the first such record
    is in the result no more, the records for the option that are left are
    the former ones without those equal to it, and they are fewer. *)
Theorem absent_removes_a_target lines iface o v changed out :
  ret (setInterfaceOption lines iface o v "absent") = Ok (changed, out) →
  (changed = false ↔ target_options_of lines iface o = [])
  ∧ ∀ t, head (target_options_of lines iface o) = Some t →
         (t ∉ out)
         ∧ target_options_of out iface o
           = filter (λ l, l ≠ t) (target_options_of lines iface o)
         ∧ (length (target_options_of out iface o)
            < length (target_options_of lines iface o))%nat.
Proof.
  intros H. edit_cases H.
  - split; [done|]. intros t Hh. by rewrite Ht in Hh.
  - split; [split; [done|]; intros Hn; by rewrite Hn in Ht|].
    intros t' Hh. rewrite Ht in Hh. simplify_eq/=.
    split; [apply not_in_filter_ne|].
    by apply (targets_after_removal _ _ _ _ rest).
Qed.

Lemma absent_removes_a_target_witness :
  optionDict ("    mtu 1500" +:+ nl) "eth0" "mtu" "1500"
  ∉ [ifaceDict ("iface eth0 inet static" +:+ nl) "eth0" (∅ : dict);
     optionDict ("    mtu 9000" +:+ nl) "eth0" "mtu" "9000"].
Proof.
  apply (proj2 (absent_removes_a_target two_mtu "eth0" "mtu" "None" true _
                  ltac:(vm_compute; reflexivity)) _
           ltac:(vm_compute; reflexivity)).
Defined.

(** X14.  As many calls with state [absent] as the interface has records
    for the option, each on what the one before returned, leave no record
    for the option. *)
Theorem absent_repeated_removes_all lines iface o v :
  target_options_of
    (absent_times (length (target_options_of lines iface o)) lines iface o v)
    iface o = [].
Proof.
  assert (Hgen : ∀ n l, (length (target_options_of l iface o) ≤ n)%nat →
                 target_options_of (absent_times n l iface o v) iface o = []).
  { induction n as [|n IH]; intros l Hn; simpl.
    - apply length_lt_1. lia.
    - pose proof (setInterfaceOption_ends l iface o v "absent") as E.
      revert E. generalize (setInterfaceOption l iface o v "absent").
      intros r E.
      inversion E
        as [ s' Hi | s' Hi Hp' Ha | Hi Ht | t rest Ht | | | | ];
        subst; simpl in *.
      + destruct (target_options_of l iface o) eqn:Hts; [done|].
        exfalso. eapply targets_have_iface_lines; [|exact Hi].
        by rewrite Hts.
      + done.
      + apply IH. rewrite Ht. simpl. lia.
      + apply IH. destruct (targets_after_removal _ _ _ _ _ Ht) as [_ Hlen].
        lia. }
  by apply Hgen.
Qed.

(** X15.  When the interface has no record for the option, a call with
    state [present] that returns reports a change and puts exactly one new
    option record right after the last record of the interface, no record
    of the interface following it; its line is built from that last
    record's line. *)
Theorem new_option_goes_after_last_line lines iface o v changed out :
  ret (setInterfaceOption lines iface o v "present") = Ok (changed, out) →
  target_options_of lines iface o = [] →
  changed = true
  ∧ ∃ l1 a l2 line,
      lines = l1 ++ a :: l2
      ∧ iface_of a = Some iface
      ∧ Forall (λ r, iface_of r ≠ Some iface) l2
      ∧ new_option_line (line_of a)
          (bool_decide (length (iface_options_of lines iface) < 1)%nat) o v
        = Ok line
      ∧ out = l1 ++ a :: optionDict line iface o v :: l2.
Proof.
  intros H Hno. edit_cases H.
  - by rewrite Hno in Ht.
  - by rewrite Hno in Ht.
  - split; [done|]. exists l1, a, l2, line.
    split; [done|].
    apply filter_last_split in Ha as (? & ? & ? & Hia & _).
    split; [exact Hia|]. split; [|done].
    apply Forall_forall. intros y Hy Hi.
    by apply (filter_nil_not_elem (of_iface iface) l2 y).
Qed.

Lemma new_option_goes_after_last_line_witness :
  ∃ l1 a l2 line,
    eth0_static = l1 ++ a :: l2
    ∧ [ifaceDict ("iface eth0 inet static" +:+ nl) "eth0" ∅;
       optionDict ("    address 10.0.0.1" +:+ nl) "eth0" "address" "10.0.0.1";
       optionDict ("    mtu 1500" +:+ nl) "eth0" "mtu" "1500"]
      = l1 ++ a :: optionDict line "eth0" "mtu" "1500" :: l2.
Proof.
  destruct (new_option_goes_after_last_line eth0_static "eth0" "mtu" "1500"
              true _ ltac:(vm_compute; reflexivity)
              ltac:(vm_compute; reflexivity))
    as (_ & l1 & a & l2 & line & H1 & _ & _ & _ & H2).
  by exists l1, a, l2, line.
Defined.

(** X16.  When the interface has several records for the option, a call
    with state [present] and other words for the value replaces the last
    of them in place, and the earlier ones stay as they are. *)
Theorem only_last_duplicate_is_updated lines iface o v changed out old :
  ret (setInterfaceOption lines iface o v "present") = Ok (changed, out) →
  last (target_options_of lines iface o) = Some old →
  Py.split (value_of old) ≠ Py.split v →
  let new := optionDict (updated_option_line (line_of old) (value_of old) o v)
               iface o v in
  changed = true
  ∧ ∃ l1 l2,
      lines = l1 ++ old :: l2
      ∧ out = l1 ++ new :: l2
      ∧ target_options_of lines iface o = target_options_of l1 iface o ++ [old]
      ∧ target_options_of out iface o = target_options_of l1 iface o ++ [new].
Proof.
  intros H Hlast Hdiff. edit_cases H.
  - simpl. split; [done|]. exists l1, l2.
    split; [done|]. split; [done|].
    rewrite !target_options_filter, !filter_app, !filter_cons, Hl2.
    rewrite target_options_filter in Hlast.
    apply filter_last_split in Hlast as (? & ? & _ & Htt & _).
    subst new.
    rewrite !decide_True; [done|by apply target_inv; eauto|done].
  - by rewrite Ht in Hlast.
Qed.

Lemma only_last_duplicate_is_updated_witness :
  ∃ l1 l2,
    two_mtu = l1 ++ optionDict ("    mtu 9000" +:+ nl) "eth0" "mtu" "9000" :: l2
    ∧ [ifaceDict ("iface eth0 inet static" +:+ nl) "eth0" ∅;
       optionDict ("    mtu 1500" +:+ nl) "eth0" "mtu" "1500";
       optionDict ("    mtu 1400" +:+ nl) "eth0" "mtu" "1400"]
      = l1 ++ optionDict
                (updated_option_line ("    mtu 9000" +:+ nl) "9000" "mtu" "1400")
                "eth0" "mtu" "1400" :: l2.
Proof.
  destruct (only_last_duplicate_is_updated two_mtu "eth0" "mtu" "1400" true _
              (optionDict ("    mtu 9000" +:+ nl) "eth0" "mtu" "9000")
              ltac:(vm_compute; reflexivity) ltac:(vm_compute; reflexivity)
              ltac:(vm_compute; discriminate))
    as (_ & l1 & l2 & H1 & H2 & _).
  by exists l1, l2.
Defined.

(** X17.  The editor fails in three ways only, and leaves the caller's list
    as it was in each: "interface not found" when no record carries the
    interface; "unsupported state"; and [IndexError] when an option is to be
    added and the line of the interface's last record has no word. *)
Theorem editor_fails_in_three_ways lines iface o v state e :
  ret (setInterfaceOption lines iface o v state) = Err e →
  caller_lines (setInterfaceOption lines iface o v state) = lines
  ∧ ((e = FailJson (InterfaceNotFound iface)
      ∧ ∀ r, r ∈ lines → iface_of r ≠ Some iface)
     ∨ (e = FailJson (UnsupportedState state)
        ∧ state ≠ "present" ∧ state ≠ "absent")
     ∨ (e = IndexError ∧ state = "present"
        ∧ target_options_of lines iface o = []
        ∧ ∃ a, last (iface_lines_of lines iface) = Some a
               ∧ Py.split (line_of a) = [])).
Proof.
  intros H.
  pose proof (setInterfaceOption_ends lines iface o v state) as E.
  revert H E. generalize (setInterfaceOption lines iface o v state).
  intros r H E. inversion E; subst; simpl in *; simplify_eq;
    (split; [done|]).
  - left. split; [done|]. by apply iface_lines_nil.
  - right. left. done.
  - right. right. eauto 10.
Qed.

Lemma editor_fails_in_three_ways_witness :
  caller_lines (setInterfaceOption blank_anchor "eth0" "mtu" "1500" "present")
  = blank_anchor.
Proof.
  apply (proj1 (editor_fails_in_three_ways blank_anchor "eth0" "mtu" "1500"
                  "present" IndexError ltac:(vm_compute; reflexivity))).
Defined.


(** * Words and values *)

Lemma rev_app_rev_app (a b c : string) :
  String.rev_app (String.rev_app a b) c = String.rev_app b (a +:+ c).
Proof.
  revert b c. induction a as [|x a IH]; intros b c; [done|].
  simpl. rewrite IH. simpl. by rewrite string_app_cons.
Qed.

Lemma rev_rev (w : string) :
  String.rev_app (String.rev_app w EmptyString) EmptyString = w.
Proof. rewrite rev_app_rev_app. simpl. apply string_app_nil_r. Qed.

Lemma no_space_rev_app (a b : string) :
  no_space a → no_space b → no_space (String.rev_app a b).
Proof.
  revert b. induction a as [|x a IH]; intros b Ha Hb; [done|].
  destruct Ha as [Hx Ha]. simpl. apply IH; [done|]. by split.
Qed.

Lemma rev_app_not_empty (a b : string) :
  b ≠ EmptyString → String.rev_app a b ≠ EmptyString.
Proof.
  revert b. induction a as [|x a IH]; intros b Hb; [done|].
  simpl. by apply IH.
Qed.

Lemma rev_app_not_empty_l (a b : string) :
  a ≠ EmptyString → String.rev_app a b ≠ EmptyString.
Proof.
  destruct a as [|x a]; [done|]. intros _. simpl.
  by apply rev_app_not_empty.
Qed.

(** Reading a word: the bytes go to the word being read. *)
Lemma words_go_word (w s : string) (cur : option string) :
  is_word w →
  String.words_go cur (w +:+ s)
  = String.words_go (Some (String.rev_app w (default EmptyString cur))) s.
Proof.
  intros [Hne Hw]. revert cur. induction w as [|a w IH]; intros cur; [done|].
  destruct Hw as [Ha Hw]. rewrite string_app_cons. simpl. rewrite Ha.
  destruct w as [|b w].
  - simpl. by destruct cur.
  - rewrite IH by done. by destruct cur.
Qed.

(** [split] undoes [join] on words. *)
Lemma split_join (ws : list string) :
  Forall is_word ws → Py.split (Py.join " " ws) = ws.
Proof.
  unfold Py.split, Py.join, String.words.
  induction 1 as [|w ws Hw Hws IH]; [done|].
  destruct ws as [|w2 ws].
  - simpl. rewrite <- (string_app_nil_r w) at 1.
    rewrite words_go_word by done. simpl. unfold String.rev.
    by rewrite (rev_rev w).
  - change (String.concat " " (w :: w2 :: ws))
      with (w +:+ " " +:+ String.concat " " (w2 :: ws)).
    rewrite words_go_word by done.
    change (" " +:+ String.concat " " (w2 :: ws))
      with (String " " (String.concat " " (w2 :: ws))).
    simpl. unfold String.rev. rewrite rev_rev. f_equal. exact IH.
Qed.

(** The words of a string are words. *)
Lemma split_gives_words (s : string) : Forall is_word (Py.split s).
Proof.
  unfold Py.split, String.words.
  assert (Hgen : ∀ cur,
            (∀ c, cur = Some c → c ≠ EmptyString ∧ no_space c) →
            Forall is_word (String.words_go cur s)).
  { induction s as [|a s IH]; intros cur Hcur; simpl.
    - destruct cur as [c|]; simpl; [|done].
      destruct (Hcur c eq_refl) as [Hne Hc].
      apply Forall_singleton. split.
      + by apply rev_app_not_empty_l.
      + by apply no_space_rev_app.
    - destruct (Ascii.is_space a) eqn:Ha.
      + apply Forall_app. split; [|by apply IH].
        destruct cur as [c|]; simpl; [|done].
        destruct (Hcur c eq_refl) as [Hne Hc].
        apply Forall_singleton. split.
        * by apply rev_app_not_empty_l.
        * by apply no_space_rev_app.
      + apply IH. intros c [= <-]. destruct cur as [c|]; simpl.
        * destruct (Hcur c eq_refl) as [Hne Hc]. done.
        * done. }
  by apply Hgen.
Qed.

Lemma parsed_ok (line_strings : list string) :
  is_ok (read_interfaces_lines line_strings) = true →
  read_interfaces_lines line_strings
  = Ok (parsed line_strings, parsed_ifaces line_strings).
Proof.
  unfold parsed, parsed_ifaces.
  by destruct (read_interfaces_lines line_strings) as [[recs ifs]|e].
Qed.

(** X18.  On the records of a parse, a call with state [present] for an
    option the interface has reports no change exactly when the last line
    for that option reads: the option name, then the words of the requested
    value, however they are spaced. *)
Theorem no_change_exactly_when_words_match
    (line_strings : list string) (recs : list (LineRecord dict))
    (ifs : gmap string dict) (iface o v : string) (old : LineRecord dict)
    (changed : bool) (out : list (LineRecord dict)) :
  read_interfaces_lines line_strings = Ok (recs, ifs) →
  last (target_options_of recs iface o) = Some old →
  ret (setInterfaceOption recs iface o v "present") = Ok (changed, out) →
  changed = false ↔ Py.split (line_of old) = o :: Py.split v.
Proof.
  intros Hparse Hlast H.
  assert (Hold : ∃ args, Py.split (line_of old) = o :: args
                         ∧ Py.split (value_of old) = args).
  { pose proof Hlast as Hin. rewrite target_options_filter in Hin.
    apply filter_last_split in Hin as (l1 & l2 & Hlines & Htarget & _).
    apply target_inv in Htarget as (l & val & ->).
    apply read_interfaces_lines_inv in Hparse as (st & Hrun & Hrecs & _).
    pose proof (run_agrees line_strings initial st (Forall_nil_2 _) Hrun)
      as Hall.
    assert (Hagree : agrees_with_line (optionDict (P := dict) l iface o val)).
    { assert (Hin : optionDict l iface o val ∈ resolve (heap st) <$> lines st)
        by (rewrite <- Hrecs, Hlines; apply elem_of_app; right; left).
      apply list_elem_of_fmap in Hin as (r & Hr & Hin).
      rewrite Forall_forall in Hall. specialize (Hall r Hin).
      destruct r; simplify_eq/=. exact Hall. }
    destruct Hagree as (args & Hw & -> & _). exists args. split; [done|].
    simpl. apply split_join.
    pose proof (split_gives_words l) as Hws. rewrite Hw in Hws.
    by inversion Hws. }
  destruct Hold as (args & Hold_line & Hold_value).
  edit_cases H.
  - split; [|done]. intros _. by rewrite Hold_line, Hv.
  - split; [done|]. intros Heq. exfalso. apply Hv.
    rewrite Hold_line in Heq. by simplify_eq.
  - by rewrite Ht in Hlast.
Qed.

Lemma no_change_exactly_when_words_match_witness :
  ∃ changed out,
    ret (setInterfaceOption (parsed spaced_mtu) "eth0" "mtu" " 1500" "present")
    = Ok (changed, out)
    ∧ (changed = false
       ↔ Py.split ("	mtu   1500  " +:+ nl) = "mtu" :: Py.split " 1500").
Proof.
  destruct (ret (setInterfaceOption (parsed spaced_mtu) "eth0" "mtu" " 1500"
                   "present")) as [[changed out]|e] eqn:Hset.
  - exists changed, out. split; [reflexivity|].
    apply (no_change_exactly_when_words_match spaced_mtu (parsed spaced_mtu)
             (parsed_ifaces spaced_mtu) "eth0" "mtu" " 1500"
             (optionDict ("	mtu   1500  " +:+ nl) "eth0" "mtu" "1500")
             changed out).
    + apply parsed_ok. by vm_compute.
    + by vm_compute.
    + exact Hset.
  - exfalso. apply (f_equal is_ok) in Hset. vm_compute in Hset.
    discriminate Hset.
Defined.

(** * The stanzas' dictionaries, on an example *)

Lemma params_are_header_then_options_witness :
  omap params_of (parsed duplicated_mtu)
  = stanza_dicts [] (parsed duplicated_mtu).
Proof.
  apply (params_are_header_then_options duplicated_mtu _
           (parsed_ifaces duplicated_mtu)).
  apply parsed_ok. by vm_compute.
Defined.

Lemma interface_map_holds_last_stanza_witness :
  parsed_ifaces duplicated_mtu !! "eth0"
  = last (params_named "eth0" (parsed duplicated_mtu)).
Proof.
  apply (interface_map_holds_last_stanza duplicated_mtu).
  apply parsed_ok. by vm_compute.
Defined.

(** * From the file to the file *)

Lemma write_changes_app (a b : list string) :
  write_changes (a ++ b) = write_changes a +:+ write_changes b.
Proof.
  induction a as [|x a IH]; [done|]. simpl.
  by rewrite IH, string_app_assoc.
Qed.



(** * The caller *)

(** The real run of [set_mtu_9000] fails in [write_changes] on a file
    system that does not let the write complete, after the backup was
    taken; the check-mode run of the same parameters reports a change. *)
Example real_run_fails_where_check_mode_reports :
  (match exit (main set_mtu_9000
                 ("iface eth0 inet static" +:+ nl +:+ "    mtu 1500" +:+ nl)
                 {| backup_ok := true; write_ok := false |}) with
   | inl e => Some e
   | inr _ => None
   end) = Some WriteFailed
  ∧ backup_taken (main set_mtu_9000
                    ("iface eth0 inet static" +:+ nl +:+ "    mtu 1500" +:+ nl)
                    {| backup_ok := true; write_ok := false |}) = true
  ∧ (match exit (main (with_check_mode true set_mtu_9000)
                   ("iface eth0 inet static" +:+ nl +:+ "    mtu 1500" +:+ nl)
                   {| backup_ok := true; write_ok := false |}) with
     | inl _ => None
     | inr (changed, _) => Some changed
     end) = Some true.
Proof. vm_compute. done. Qed.


(** X21.  [main] writes the file only in a real run in which an option and
    an interface were given, the editor reported a change and the edited
    lines were parsed again without failure, and the file system let the
    backup, if asked for, and the write complete; what it writes is the
    edited lines one after the other, a backup is taken exactly when asked
    for, and the run reports the change. *)
Theorem main_writes_only_a_change
    (p : Params) (text w : string) (d : Disk) :
  written (main p text d) = Some w →
  p_check_mode p = false
  ∧ backup_taken (main p text d) = p_backup p
  ∧ write_ok d = true
  ∧ p_backup p && negb (backup_ok d) = false
  ∧ ∃ o iface recs ifs out ifs',
      p_option p = Some o ∧ p_iface p = Some iface
      ∧ read_interfaces_file text = Ok (recs, ifs)
      ∧ ret (setInterfaceOption recs iface o (str (p_value p)) (p_state p))
        = Ok (true, out)
      ∧ is_ok (read_interfaces_lines (line_of <$> out)) = true
      ∧ w = write_changes (line_of <$> out)
      ∧ exit (main p text d) = inr (true, ifs').
Proof.
  unfold main.
  destruct (decide (p_option p ≠ None ∧ p_iface p = None)) as [|H1]; [done|].
  case_decide; [done|].
  destruct (read_interfaces_file text) as [[recs ifs]|e]; [|done].
  destruct (p_option p) as [o|] eqn:Ho; [|done].
  destruct (p_iface p) as [iface|] eqn:Hi; [|by destruct H1].
  simpl.
  destruct (ret (setInterfaceOption recs iface o (str (p_value p))
                   (p_state p))) as [[c out]|e] eqn:Hset; [|done].
  destruct c; [|done].
  destruct (read_interfaces_lines (line_of <$> out)) as [[recs' ifs']|e]
    eqn:Hre; [|done].
  simpl. destruct (p_check_mode p); simpl; [done|].
  destruct (p_backup p && negb (backup_ok d)) eqn:Hb; [done|].
  destruct (write_ok d) eqn:Hw; simpl; [|done].
  intros [= <-]. split; [done|]. split; [done|]. split; [done|].
  split; [done|].
  exists o, iface, recs, ifs, out, ifs'. by rewrite Hre.
Qed.

Lemma main_writes_only_a_change_witness :
  backup_taken
    (main set_mtu_9000
       ("iface eth0 inet static" +:+ nl +:+ "    mtu 1500" +:+ nl)
       healthy) = true.
Proof.
  apply (main_writes_only_a_change set_mtu_9000
           ("iface eth0 inet static" +:+ nl +:+ "    mtu 1500" +:+ nl)
           ("iface eth0 inet static" +:+ nl +:+ "    mtu 9000" +:+ nl)
           healthy).
  by vm_compute.
Defined.



(** * The back references, on an example *)

(** X22.  When no line of the file has [name] as its first word, every
    option record of the parse carries the interface of the nearest [iface]
    record above it, and no line starting with one of the eight literals
    lies between the two. *)
Theorem option_records_name_their_stanza
    (line_strings : list string) (recs : list (LineRecord dict))
    (ifs : gmap string dict) :
  Forall (λ l, head (Py.split l) ≠ Some "name") line_strings →
  read_interfaces_lines line_strings = Ok (recs, ifs) →
  back_references None recs.
Proof.
  intros Hall H. apply read_interfaces_lines_inv in H as (st & Hrun & -> & _).
  apply resolve_back_references.
  assert (Hgen : ∀ ls st0 st1,
            Forall (λ l, head (Py.split l) ≠ Some "name") ls →
            names_agree st0 → run st0 ls = Ok st1 → names_agree st1).
  { induction ls as [|l ls IH]; intros st0 st1 Hls Hinv Hr; simpl in Hr.
    - by simplify_eq.
    - inversion Hls; subst.
      destruct (process_line st0 l) as [st2|e] eqn:Hp; simpl in Hr; [|done].
      eauto using names_agree_step. }
  assert (Hinit : names_agree initial) by (split; [done|intros ?; done]).
  by destruct (Hgen _ _ _ Hall Hinit Hrun).
Qed.

Lemma option_records_name_their_stanza_witness :
  back_references None (parsed eth0_mtu).
Proof.
  apply (option_records_name_their_stanza eth0_mtu _ (parsed_ifaces eth0_mtu)).
  - repeat constructor; by vm_compute.
  - apply parsed_ok. by vm_compute.
Defined.

Lemma present_edits_in_place_absent_copies_witness :
  caller_lines (setInterfaceOption two_mtu "eth0" "mtu" "None" "absent")
  = two_mtu.
Proof.
  apply (proj1 (proj2 (present_edits_in_place_absent_copies two_mtu "eth0"
                         "mtu" "None" "absent"))).
  discriminate.
Defined.
